(** * A task tracker: the Task entity and its storage adapter

    A shallow embedding of [src/models/Task.js] and
    [src/utils/StorageManager.js], and of the address selection of
    [server.js], followed by the properties the specification states about
    them and by further properties read off the code.

    The embedding keeps the shape of the JavaScript: values are dynamically
    typed ([jsval]), a [throw] is an abrupt completion carrying the thrown
    object ([exn]), and the mutable things the code touches (the clock, the
    random source, the fields of a Task, the browser's [localStorage]) are
    threaded as explicit state through a small state-and-exception monad. *)

From Stdlib Require Import ZArith String Ascii List Lia Bool DecimalString DecimalZ DecimalPos.
From stdpp Require Import gmap strings list fin_maps.

Local Open Scope string_scope.
Local Open Scope Z_scope.

(* ===================================================================== *)
(** * Part I. The model                                                   *)
(* ===================================================================== *)

(** ** JavaScript values and the built-ins the sources call *)

Module JS.

(** The values that reach the two classes: what [JSON.parse] can build,
    plus [undefined] (an absent property or an omitted argument).  A string
    is a sequence of code units below U+0100, one [ascii] each; a Number is
    an integer (the only Numbers the code computes with are time values and
    string lengths), [JNum n] being the Number that the integer [n]
    denotes.  An object lists its own properties in enumeration order, each
    key once. *)
#[warnings="-register-all"]
Inductive jsval : Type :=
| JUndefined
| JNull
| JBool (b : bool)
| JNum (n : Z)
| JStr (s : string)
| JArr (elems : list jsval)
| JObj (props : list (string * jsval)).

(** What a [throw] carries.  [new Error(msg)] is what Task.js throws on
    its own; the other constructors are the errors the runtime raises:
    calling a method that is not there ([TypeError]), [toISOString] on an
    invalid Date ([RangeError]), a refused [localStorage] access
    ([DOMException], by name), and [JSON.parse] on malformed text
    ([SyntaxError]). *)
Inductive exn : Type :=
| Error (msg : string)
| TypeError (msg : string)
| RangeError (msg : string)
| SyntaxError (msg : string)
| DOMException (name : string).

(** The outcome of evaluating an expression or running a statement. *)
Inductive completion (A : Type) : Type :=
| Normal (a : A)
| Throw (e : exn).
Arguments Normal {A} a.
Arguments Throw {A} e.

(** State and exceptions: a computation runs against a state [S], ends
    normally or abruptly, and leaves a state either way (what was mutated
    before a [throw] stays mutated). *)
Definition M (S A : Type) : Type := S -> completion A * S.

Definition ret {S A} (a : A) : M S A := fun s => (Normal a, s).

Definition throw {S A} (e : exn) : M S A := fun s => (Throw e, s).

Definition bind {S A B} (m : M S A) (k : A -> M S B) : M S B :=
  fun s => match m s with
           | (Normal a, s') => k a s'
           | (Throw e, s') => (Throw e, s')
           end.

(** [try { body } catch (error) { handler }]. *)
Definition try_catch {S A} (body : M S A) (handler : exn -> M S A) : M S A :=
  fun s => match body s with
           | (Normal a, s') => (Normal a, s')
           | (Throw e, s') => handler e s'
           end.

Definition get {S} : M S S := fun s => (Normal s, s).

Definition modify {S} (f : S -> S) : M S unit := fun s => (Normal tt, f s).

(** Run a computation on one component of a pair of states. *)
Definition on_snd {S T A} (m : M T A) : M (S * T) A :=
  fun st => match m (snd st) with (r, t') => (r, (fst st, t')) end.

Definition on_fst {S T A} (m : M S A) : M (S * T) A :=
  fun st => match m (fst st) with (r, s') => (r, (s', snd st)) end.

(** Lift a pure completion. *)
Definition lift {S A} (c : completion A) : M S A := fun s => (c, s).

(** ToBoolean: what [if (x)], [!x], [x && y] and [x ? a : b] test. *)
Definition truthy (v : jsval) : bool :=
  match v with
  | JUndefined | JNull => false
  | JBool b => b
  | JNum n => negb (n =? 0)%Z
  | JStr s => negb (String.eqb s "")
  | JArr _ | JObj _ => true
  end.

(** [separator]-joined concatenation, as [Array.prototype.join]. *)
Fixpoint join (sep : string) (l : list string) : string :=
  match l with
  | [] => ""
  | [s] => s
  | s :: rest => s +:+ sep +:+ join sep rest
  end.

(** Number::toString for an integer below 10^21 in magnitude, where the
    result is the plain decimal numeral: the time values that [Date.now()]
    returns are of this kind. *)
Definition Number_toString (n : Z) : string := NilZero.string_of_int (Z.to_int n).

(** The Number that a positive integer denotes: the integer rounded to 53
    significant bits, to the nearest and on a tie to the even one.  An
    integer of up to 53 bits is its own Number. *)
Definition round_to_double (m : Z) : Z :=
  let shift := Z.log2 m - 52 in
  if shift <=? 0 then m
  else
    let q := Z.shiftr m shift in
    let r := m - Z.shiftl q shift in
    let half := Z.shiftl 1 (shift - 1) in
    Z.shiftl (if (half <? r) || ((r =? half) && Z.odd q) then q + 1 else q) shift.

(** What rounds to [2^1024] or more is [Infinity]. *)
Definition overflows (m : Z) : bool := 2 ^ 1024 <=? round_to_double m.

(** The digits [s] of Number::toString for a Number [x] of [digits]
    decimal digits, by the number [k] of them: the least [k] for which some
    [s * 10^(digits - k)] is the Number [x] (rounds to it), and for that [k]
    the [s] nearest to [x], the even one on a tie.  Seventeen digits tell
    any two Numbers apart. *)
Definition digits_at (x digits k : Z) : option Z :=
  let p := 10 ^ (digits - k) in
  let lo := x / p in
  let hi := lo + 1 in
  match round_to_double (lo * p) =? x, round_to_double (hi * p) =? x with
  | true, true =>
      if x - lo * p <? hi * p - x then Some lo
      else if hi * p - x <? x - lo * p then Some hi
      else if Z.even lo then Some lo else Some hi
  | true, false => Some lo
  | false, true => Some hi
  | false, false => None
  end.

Fixpoint shortest_digits (x digits : Z) (tries : nat) (k : Z) : Z * Z :=
  match tries with
  | O => (x, digits)
  | S tries =>
      match digits_at x digits k with
      | Some s => (s, k)
      | None => shortest_digits x digits tries (k + 1)
      end
  end.

(** Number::toString for a Number of magnitude 10^21 or more: one digit,
    the others after a point if there are any, and the decimal exponent. *)
Definition exponent_form (x : Z) : string :=
  let digits := Z.of_nat (String.length (Number_toString x)) in
  let '(s, k) := shortest_digits x digits 17 1 in
  if s =? 10 ^ k then "1e+" +:+ Number_toString digits
  else
    match Number_toString s with
    | String d EmptyString => String d ("e+" +:+ Number_toString (digits - 1))
    | String d more => String d ("." +:+ more +:+ "e+" +:+ Number_toString (digits - 1))
    | EmptyString => EmptyString
    end.

(** Number::toString for the Number that the integer [n] denotes. *)
Definition Number_text (n : Z) : string :=
  let x := round_to_double (Z.abs n) in
  let text :=
    if overflows (Z.abs n) then "Infinity"
    else if x <? 10 ^ 21 then Number_toString x
    else exponent_form x in
  if n <? 0 then String "-" text else text.

(** Whether a property list has the own property [k]. *)
Definition has_own (k : string) (props : list (string * jsval)) : bool :=
  existsb (fun kv => String.eqb k (fst kv)) props.

(** ToString, as a template literal's [${...}] applies it, and ToPrimitive
    followed by ToString for an array or object.  An array is joined with
    commas, [undefined] and [null] elements giving the empty string.  A
    plain object is ["[object Object]"], by the [toString] it inherits,
    unless an own property of that name (never callable here) shadows it:
    then no conversion is left and a TypeError is thrown. *)
Fixpoint ToString (v : jsval) : completion string :=
  match v with
  | JUndefined => Normal "undefined"
  | JNull => Normal "null"
  | JBool true => Normal "true"
  | JBool false => Normal "false"
  | JNum n => Normal (Number_text n)
  | JStr s => Normal s
  | JArr elems =>
      match
        (fix each (l : list jsval) : completion (list string) :=
           match l with
           | [] => Normal []
           | e :: rest =>
               match (match e with
                      | JUndefined | JNull => Normal ""
                      | _ => ToString e
                      end) with
               | Throw x => Throw x
               | Normal s =>
                   match each rest with
                   | Throw x => Throw x
                   | Normal ss => Normal (s :: ss)
                   end
               end
           end) elems
      with
      | Throw x => Throw x
      | Normal ss => Normal (join "," ss)
      end
  | JObj props =>
      if has_own "toString" props
      then Throw (TypeError "Cannot convert object to primitive value")
      else Normal "[object Object]"
  end.

(** WhiteSpace and LineTerminator code units below U+0100: TAB, LF, VT,
    FF, CR, SPACE and NO-BREAK SPACE. *)
Definition is_whitespace (c : ascii) : bool :=
  match N_of_ascii c with
  | 9 | 10 | 11 | 12 | 13 | 32 | 160 => true
  | _ => false
  end%N.

Fixpoint trimStart (s : string) : string :=
  match s with
  | EmptyString => EmptyString
  | String c rest => if is_whitespace c then trimStart rest else s
  end.

Fixpoint trimEnd (s : string) : string :=
  match s with
  | EmptyString => EmptyString
  | String c rest =>
      match trimEnd rest with
      | EmptyString => if is_whitespace c then EmptyString else String c EmptyString
      | kept => String c kept
      end
  end.

(** [String.prototype.trim]. *)
Definition trim (s : string) : string := trimEnd (trimStart s).

(** [v.trim()] on a value of unknown type: a string has the method, [null]
    and [undefined] have no properties, and nothing else that this model
    holds has a callable [trim]. *)
Definition call_trim (what : string) (v : jsval) : completion string :=
  match v with
  | JStr s => Normal (trim s)
  | JUndefined => Throw (TypeError "Cannot read properties of undefined")
  | JNull => Throw (TypeError "Cannot read properties of null")
  | _ => Throw (TypeError (what +:+ ".trim is not a function"))
  end.

(** The own property [k] of an object's property list. *)
Fixpoint lookup_prop (k : string) (props : list (string * jsval)) : jsval :=
  match props with
  | [] => JUndefined
  | (k', v) :: rest => if String.eqb k k' then v else lookup_prop k rest
  end.

(** [data.k] for one of the Task record's field names [k]: reading a
    property of [undefined] or [null] throws; an object gives its own
    property or [undefined]; a primitive or an array has none of these
    names. *)
Definition Get (data : jsval) (k : string) : completion jsval :=
  match data with
  | JUndefined => Throw (TypeError "Cannot read properties of undefined")
  | JNull => Throw (TypeError "Cannot read properties of null")
  | JObj props => Normal (lookup_prop k props)
  | _ => Normal JUndefined
  end.

(** [list.includes(v)] for a list of strings: SameValueZero only equates a
    string with an equal string. *)
Definition includes (l : list string) (v : jsval) : bool :=
  match v with
  | JStr s => existsb (String.eqb s) l
  | _ => false
  end.

(** [s.startsWith(p)]. *)
Definition startsWith (s p : string) : bool := String.prefix p s.

End JS.

(** ** Dates: time values and the ISO-8601 text of [toISOString] *)

Module Date.
Import JS.

(** A Date object holds a time value, an integral number of milliseconds
    since the epoch of magnitude at most 8.64e15, or NaN ("Invalid Date"). *)
Inductive Date : Type :=
| InvalidDate
| DateAt (t : Z).

Definition maxTime : Z := 8640000000000000.

Definition valid_time (t : Z) : Prop := - maxTime <= t <= maxTime.

(** TimeClip. *)
Definition TimeClip (t : Z) : Date :=
  if (- maxTime <=? t) && (t <=? maxTime) then DateAt t else InvalidDate.

(** The calendar arithmetic of ECMA-262 (Day Number and Time within Day,
    Year Number, Month Number, Date Number, Hours, Minutes, Seconds and
    Milliseconds), over integers. *)
Definition msPerDay : Z := 86400000.

Definition Day (t : Z) : Z := t / msPerDay.

Definition InLeapYear (y : Z) : bool :=
  (y mod 4 =? 0) && (negb (y mod 100 =? 0) || (y mod 400 =? 0)).

Definition leap_days (y : Z) : Z := if InLeapYear y then 1 else 0.

Definition DayFromYear (y : Z) : Z :=
  365 * (y - 1970) + (y - 1969) / 4 - (y - 1901) / 100 + (y - 1601) / 400.

(** The year a day falls in: the largest [y] with [DayFromYear y <= d],
    found from the mean length of a Gregorian year and one correction. *)
Definition YearFromDay (d : Z) : Z :=
  let y := 1970 + d * 400 / 146097 in
  if DayFromYear (y + 1) <=? d then y + 1
  else if d <? DayFromYear y then y - 1
  else y.

(** The day within the year on which month [m] (0 to 11) starts, in a year
    with [L] leap days; at 12, the length of the year. *)
Definition month_start (L : Z) (m : Z) : Z :=
  match m with
  | 0 => 0 | 1 => 31 | 2 => 59 + L | 3 => 90 + L | 4 => 120 + L | 5 => 151 + L
  | 6 => 181 + L | 7 => 212 + L | 8 => 243 + L | 9 => 273 + L | 10 => 304 + L
  | 11 => 334 + L | _ => 365 + L
  end.

Definition MonthFromDay (L d : Z) : Z :=
  if d <? 31 then 0 else if d <? 59 + L then 1 else if d <? 90 + L then 2
  else if d <? 120 + L then 3 else if d <? 151 + L then 4 else if d <? 181 + L then 5
  else if d <? 212 + L then 6 else if d <? 243 + L then 7 else if d <? 273 + L then 8
  else if d <? 304 + L then 9 else if d <? 334 + L then 10 else 11.

Definition HourFromTime (t : Z) : Z := (t / 3600000) mod 24.
Definition MinFromTime (t : Z) : Z := (t / 60000) mod 60.
Definition SecFromTime (t : Z) : Z := (t / 1000) mod 60.
Definition msFromTime (t : Z) : Z := t mod 1000.

Definition digit_char (d : Z) : ascii := ascii_of_N (48 + Z.to_N d).

Definition digit_value (c : ascii) : option Z :=
  let n := N_of_ascii c in
  if ((48 <=? n) && (n <=? 57))%N then Some (Z.of_N n - 48) else None.

(** The last [k] decimal digits of [n], zero-padded. *)
Fixpoint pad (k : nat) (n : Z) : string :=
  match k with
  | O => ""
  | S k' => String (digit_char ((n / 10 ^ Z.of_nat k') mod 10)) (pad k' n)
  end.

(** Years 0 to 9999 print as four digits, the others as a sign and six. *)
Definition year_string (y : Z) : string :=
  if (0 <=? y) && (y <=? 9999) then pad 4 y
  else String (if y <? 0 then "-"%char else "+"%char) (pad 6 (Z.abs y)).

(** The text [toISOString] gives for a time value:
    [YYYY-MM-DDTHH:mm:ss.sssZ], in UTC. *)
Definition ISO_of_time (t : Z) : string :=
  let y := YearFromDay (Day t) in
  let L := leap_days y in
  let d := Day t - DayFromYear y in
  let m := MonthFromDay L d in
  year_string y +:+ "-" +:+ pad 2 (m + 1) +:+ "-" +:+ pad 2 (d - month_start L m + 1)
  +:+ "T" +:+ pad 2 (HourFromTime t) +:+ ":" +:+ pad 2 (MinFromTime t)
  +:+ ":" +:+ pad 2 (SecFromTime t) +:+ "." +:+ pad 3 (msFromTime t) +:+ "Z".

(** [Date.prototype.toISOString]: a RangeError on an invalid Date. *)
Definition toISOString (d : Date) : completion string :=
  match d with
  | DateAt t => Normal (ISO_of_time t)
  | InvalidDate => Throw (RangeError "Invalid time value")
  end.

(** Reading the same format back. *)
Fixpoint read_digits (k : nat) (acc : Z) (s : string) : option (Z * string) :=
  match k, s with
  | O, _ => Some (acc, s)
  | S k', String c r =>
      match digit_value c with
      | Some d => read_digits k' (10 * acc + d) r
      | None => None
      end
  | S _, EmptyString => None
  end.

Definition expect (c : ascii) (s : string) : option string :=
  match s with
  | String c' r => if Ascii.eqb c c' then Some r else None
  | EmptyString => None
  end.

Definition read_year (s : string) : option (Z * string) :=
  match s with
  | String c r =>
      if Ascii.eqb c "+" then read_digits 6 0 r
      else if Ascii.eqb c "-" then
        match read_digits 6 0 r with
        | Some (y, r') => if y =? 0 then None else Some (- y, r')
        | None => None
        end
      else read_digits 4 0 s
  | EmptyString => None
  end.

(** MakeDate (MakeDay (y, mo - 1, dd), MakeTime (hh, mi, ss, ms)) for a
    month number [mo] from 1 and fields in range. *)
Definition MakeTime (y mo dd hh mi ss ms : Z) : Z :=
  (DayFromYear y + month_start (leap_days y) (mo - 1) + dd - 1) * msPerDay
  + hh * 3600000 + mi * 60000 + ss * 1000 + ms.

Definition fields_ok (y mo dd hh mi ss : Z) : bool :=
  (1 <=? mo) && (mo <=? 12) && (1 <=? dd)
  && (dd <=? month_start (leap_days y) mo - month_start (leap_days y) (mo - 1))
  && (hh <=? 23) && (mi <=? 59) && (ss <=? 59).

(** The complete UTC form of the Date Time String Format, with every field
    in calendar range: the strings every engine reads alike.  [None] for
    any other string. *)
Definition parse_iso (s : string) : option Z :=
  '(y, s) ← read_year s;
  s ← expect "-" s;
  '(mo, s) ← read_digits 2 0 s;
  s ← expect "-" s;
  '(dd, s) ← read_digits 2 0 s;
  s ← expect "T" s;
  '(hh, s) ← read_digits 2 0 s;
  s ← expect ":" s;
  '(mi, s) ← read_digits 2 0 s;
  s ← expect ":" s;
  '(ss, s) ← read_digits 2 0 s;
  s ← expect "." s;
  '(ms, s) ← read_digits 3 0 s;
  s ← expect "Z" s;
  match s with
  | EmptyString =>
      if fields_ok y mo dd hh mi ss then Some (MakeTime y mo dd hh mi ss ms) else None
  | _ => None
  end.

(** What an engine makes of a string that is not in the form above
    (shorter ISO forms read in local time, legacy formats, or NaN): ECMA-262
    leaves it to the implementation, so it is a parameter of the model. *)
Class Engine : Type := { heuristic_parse : string -> Date }.

(** [Date.parse], as a Date. *)
Definition Date_parse `{Engine} (s : string) : Date :=
  match parse_iso s with
  | Some t => TimeClip t
  | None => heuristic_parse s
  end.

(** [new Date(value)] for a value that is not itself a Date: a string is
    parsed, an array or object is first turned into a string (ToPrimitive,
    which may throw), anything else into a Number ([undefined] gives NaN,
    [null] 0). *)
Definition new_Date_from `{Engine} (v : jsval) : completion Date :=
  match v with
  | JStr s => Normal (Date_parse s)
  | JArr _ | JObj _ =>
      match ToString v with
      | Normal s => Normal (Date_parse s)
      | Throw e => Throw e
      end
  | JUndefined => Normal InvalidDate
  | JNull => Normal (TimeClip 0)
  | JBool b => Normal (TimeClip (if b then 1 else 0))
  | JNum n => Normal (TimeClip n)
  end.

End Date.

(** ** The clock and the random source *)

Module Runtime.
Import JS Date.

Declare Scope js_scope.
Delimit Scope js_scope with js.
Notation "x <- m ;; k" := (bind m (fun x => k))
  (at level 100, m at next level, right associativity) : js_scope.
Notation "m ;; k" := (bind m (fun _ => k))
  (at level 100, right associativity) : js_scope.

(** What a Task operation reads from its environment: the wall clock, as
    the sequence of readings the process will get, and the random source,
    as the sequence of strings [Math.random().toString(36).substr(2, 9)]
    will give.  [ticks] and [draws] count the readings taken so far. *)
Record World : Type := mkWorld {
  clock : nat -> Z;
  ticks : nat;
  entropy : nat -> string;
  draws : nat
}.

(** The world after one more reading of the clock. *)
Definition tick (w : World) : World :=
  mkWorld (clock w) (S (ticks w)) (entropy w) (draws w).

(** [Date.now()]. *)
Definition Date_now : M World Z :=
  fun w => (Normal (clock w (ticks w)), tick w).

(** [new Date()]. *)
Definition new_Date : M World Date :=
  (t <- Date_now ;; ret (DateAt t))%js.

(** [Math.random().toString(36).substr(2, 9)]. *)
Definition random_suffix : M World string :=
  fun w => (Normal (entropy w (draws w)),
            mkWorld (clock w) (ticks w) (entropy w) (S (draws w))).

(** The readings a process gets are time values, and (an assumption about
    the host's clock, which the code relies on) never go backwards. *)
Definition clock_valid (w : World) : Prop := forall i, valid_time (clock w i).

Definition clock_monotone (w : World) : Prop :=
  forall i j, (i <= j)%nat -> clock w i <= clock w j.

End Runtime.

(** ** [src/models/Task.js] *)

Module Task.
Import JS Date Runtime.
Local Open Scope js_scope.

(** The fields of a Task object.  [_title] and [_description] only ever
    hold what [trim] returned; the other fields hold whatever was assigned
    to them. *)
Record Task : Type := mkTask {
  _id : jsval;
  _title : string;
  _description : string;
  _priority : jsval;
  _completed : jsval;
  _createdAt : Date;
  _updatedAt : Date
}.

Definition set_id (v : jsval) (t : Task) : Task :=
  mkTask v (_title t) (_description t) (_priority t) (_completed t) (_createdAt t) (_updatedAt t).
Definition set_title (s : string) (t : Task) : Task :=
  mkTask (_id t) s (_description t) (_priority t) (_completed t) (_createdAt t) (_updatedAt t).
Definition set_description (s : string) (t : Task) : Task :=
  mkTask (_id t) (_title t) s (_priority t) (_completed t) (_createdAt t) (_updatedAt t).
Definition set_priority (v : jsval) (t : Task) : Task :=
  mkTask (_id t) (_title t) (_description t) v (_completed t) (_createdAt t) (_updatedAt t).
Definition set_completed (v : jsval) (t : Task) : Task :=
  mkTask (_id t) (_title t) (_description t) (_priority t) v (_createdAt t) (_updatedAt t).
Definition set_createdAt (d : Date) (t : Task) : Task :=
  mkTask (_id t) (_title t) (_description t) (_priority t) (_completed t) d (_updatedAt t).
Definition set_updatedAt (d : Date) (t : Task) : Task :=
  mkTask (_id t) (_title t) (_description t) (_priority t) (_completed t) (_createdAt t) d.

(** The getters. *)
Definition id (t : Task) : jsval := _id t.
Definition title (t : Task) : jsval := JStr (_title t).
Definition description (t : Task) : jsval := JStr (_description t).
Definition priority (t : Task) : jsval := _priority t.
Definition completed (t : Task) : jsval := _completed t.
Definition createdAt (t : Task) : Date := _createdAt t.
Definition updatedAt (t : Task) : Date := _updatedAt t.

Definition validPriorities : list string := ["low"; "medium"; "high"].

(** [_generateId()]. *)
Definition _generateId : M World string :=
  now <- Date_now ;;
  suffix <- random_suffix ;;
  ret ("task_" +:+ Number_toString now +:+ "_" +:+ suffix).

(** [_validatePriority(priority)].  The message is built, from the value
    as a string, before the Error is. *)
Definition _validatePriority (priority : jsval) : completion jsval :=
  if negb (includes validPriorities priority) then
    match ToString priority with
    | Normal text =>
        Throw (Error ("Invalid priority: " +:+ text
                      +:+ ". Must be one of: " +:+ join ", " validPriorities))
    | Throw e => Throw e
    end
  else Normal priority.

(** [!title || title.trim() === ''], the test both title checks make. *)
Definition blank (what : string) (title : jsval) : completion bool :=
  if negb (truthy title) then Normal true
  else match call_trim what title with
       | Normal s => Normal (String.eqb s "")
       | Throw e => Throw e
       end.

(** [new Task(title, description, priority = 'medium')]. *)
Definition constructor (title description priority : jsval) : M World Task :=
  let priority := match priority with JUndefined => JStr "medium" | _ => priority end in
  b <- lift (blank "title" title) ;;
  if (b : bool) then throw (Error "Task title is required") else
  id <- _generateId ;;
  title' <- lift (call_trim "title" title) ;;
  description' <- (if truthy description
                   then lift (call_trim "description" description)
                   else ret "") ;;
  priority' <- lift (_validatePriority priority) ;;
  created <- new_Date ;;
  updated <- new_Date ;;
  ret (mkTask (JStr id) title' description' priority' (JBool false) created updated).

(** The methods run against the object and the world. *)
Definition Method (A : Type) : Type := M (Task * World) A.

Definition assign (set : Task -> Task) : Method unit := on_fst (modify set).

Definition markComplete : Method unit :=
  assign (set_completed (JBool true)) ;;
  now <- on_snd new_Date ;;
  assign (set_updatedAt now).

Definition markIncomplete : Method unit :=
  assign (set_completed (JBool false)) ;;
  now <- on_snd new_Date ;;
  assign (set_updatedAt now).

Definition updateTitle (newTitle : jsval) : Method unit :=
  b <- lift (blank "newTitle" newTitle) ;;
  if (b : bool) then throw (Error "Task title cannot be empty") else
  title' <- lift (call_trim "newTitle" newTitle) ;;
  assign (set_title title') ;;
  now <- on_snd new_Date ;;
  assign (set_updatedAt now).

Definition updateDescription (newDescription : jsval) : Method unit :=
  description' <- (if truthy newDescription
                   then lift (call_trim "newDescription" newDescription)
                   else ret "") ;;
  assign (set_description description') ;;
  now <- on_snd new_Date ;;
  assign (set_updatedAt now).

Definition updatePriority (newPriority : jsval) : Method unit :=
  priority' <- lift (_validatePriority newPriority) ;;
  assign (set_priority priority') ;;
  now <- on_snd new_Date ;;
  assign (set_updatedAt now).

(** [toJSON()]: the plain record, its properties in the order written. *)
Definition toJSON (t : Task) : completion jsval :=
  match toISOString (_createdAt t) with
  | Throw e => Throw e
  | Normal created =>
      match toISOString (_updatedAt t) with
      | Throw e => Throw e
      | Normal updated =>
          Normal (JObj [("id", _id t);
                        ("title", JStr (_title t));
                        ("description", JStr (_description t));
                        ("priority", _priority t);
                        ("completed", _completed t);
                        ("createdAt", JStr created);
                        ("updatedAt", JStr updated)])
      end
  end.

(** [Task.fromJSON(data)]. *)
Definition fromJSON `{Engine} (data : jsval) : M World Task :=
  title <- lift (Get data "title") ;;
  description <- lift (Get data "description") ;;
  priority <- lift (Get data "priority") ;;
  task <- constructor title description priority ;;
  id <- lift (Get data "id") ;;
  let task := set_id id task in
  completed <- lift (Get data "completed") ;;
  let task := set_completed completed task in
  created <- lift (Get data "createdAt") ;;
  createdAt <- lift (new_Date_from created) ;;
  let task := set_createdAt createdAt task in
  updated <- lift (Get data "updatedAt") ;;
  updatedAt <- lift (new_Date_from updated) ;;
  let task := set_updatedAt updatedAt task in
  ret task.

End Task.

(** ** The browser's [localStorage] and [JSON] *)

Module Browser.
Import JS Runtime.
Local Open Scope js_scope.

(** A Storage object: its key/value pairs (both strings), and the two ways
    the browser refuses it.  When [enabled] is false every access throws (a
    SecurityError: storage blocked for the page).  [quota] bounds the
    characters held, keys and values together; a write that would exceed
    it throws a QuotaExceededError and stores nothing. *)
Record Storage : Type := mkStorage {
  items : gmap string string;
  quota : N;
  enabled : bool
}.

Definition with_items (f : gmap string string -> gmap string string) (st : Storage) : Storage :=
  mkStorage (f (items st)) (quota st) (enabled st).

(** Characters held. *)
Definition used (m : gmap string string) : N :=
  map_fold (fun k v n => N.of_nat (String.length k) + N.of_nat (String.length v) + n)%N
    0%N m.

(** Every access first reaches the Storage object. *)
Definition access : M Storage unit :=
  fun st => if enabled st then (Normal tt, st)
            else (Throw (DOMException "SecurityError"), st).

Definition setItem (k v : string) : M Storage unit :=
  access ;;
  st <- get ;;
  if (quota st <? used (<[k := v]> (items st)))%N
  then throw (DOMException "QuotaExceededError")
  else modify (with_items (insert k v)).

(** [getItem]: [None] is the [null] of an absent key. *)
Definition getItem (k : string) : M Storage (option string) :=
  access ;;
  st <- get ;;
  ret (items st !! k).

Definition removeItem (k : string) : M Storage unit :=
  access ;;
  modify (with_items (delete k)).

Definition length : M Storage nat :=
  access ;;
  st <- get ;;
  ret (size (items st)).

(** [key(i)]: the keys in the store's own (fixed, unspecified) order;
    [None] is the [null] past the end. *)
Definition key (i : nat) : M Storage (option string) :=
  access ;;
  st <- get ;;
  ret ((map_to_list (items st)).*1 !! i).

(** [JSON.stringify] (whose result is [undefined], here [None], for a
    value with no JSON text) and [JSON.parse], as the engine provides
    them. *)
Class JSON : Type := {
  JSON_stringify : jsval -> completion (option string);
  JSON_parse : string -> completion jsval
}.

(** A value is JSON-serializable when it has a JSON text that parses back
    to it. *)
Definition json_serializable `{JSON} (v : jsval) : Prop :=
  exists text, JSON_stringify v = Normal (Some text) /\ JSON_parse text = Normal v.

End Browser.

(** ** [src/utils/StorageManager.js] *)

Module StorageManager.
Import JS Runtime Browser.
Local Open Scope js_scope.

Record StorageManager : Type := mkStorageManager {
  storageKey : string;
  isAvailable : bool
}.

(** [_checkStorageAvailability()]. *)
Definition _checkStorageAvailability : M Storage bool :=
  try_catch
    (let testKey := "__storage_test__" in
     setItem testKey "test" ;;
     removeItem testKey ;;
     ret true)
    (fun error => ret false).

(** [new StorageManager(storageKey = 'taskManagementApp')]; [None] is the
    omitted argument. *)
Definition constructor (storageKey : option string) : M Storage StorageManager :=
  let storageKey := default "taskManagementApp" storageKey in
  available <- _checkStorageAvailability ;;
  ret (mkStorageManager storageKey available).

(** The template literal [`${this.storageKey}_${key}`]. *)
Definition fullKey (this : StorageManager) (key : string) : string :=
  storageKey this +:+ "_" +:+ key.

(** [save(key, data)].  (The console messages are not part of the model.) *)
Definition save `{JSON} (this : StorageManager) (key : string) (data : jsval) : M Storage bool :=
  if negb (isAvailable this) then ret false else
  try_catch
    (let fullKey := fullKey this key in
     jsonData <- lift (JSON_stringify data) ;;
     setItem fullKey (default "undefined" jsonData) ;;
     ret true)
    (fun error => ret false).

(** A parameter's default [= null]: what the parameter holds when the
    argument is omitted or [undefined]. *)
Definition or_null (v : jsval) : jsval :=
  match v with JUndefined => JNull | _ => v end.

(** [load(key, defaultValue = null)]. *)
Definition load `{JSON} (this : StorageManager) (key : string) (defaultValue : jsval)
  : M Storage jsval :=
  let defaultValue := or_null defaultValue in
  if negb (isAvailable this) then ret defaultValue else
  try_catch
    (let fullKey := fullKey this key in
     jsonData <- getItem fullKey ;;
     match jsonData with
     | None => ret defaultValue
     | Some text => lift (JSON_parse text)
     end)
    (fun error => ret defaultValue).

(** [remove(key)]. *)
Definition remove (this : StorageManager) (key : string) : M Storage bool :=
  if negb (isAvailable this) then ret false else
  try_catch
    (let fullKey := fullKey this key in
     removeItem fullKey ;;
     ret true)
    (fun error => ret false).

(** A [for (let i = 0; i < localStorage.length; i++)] loop whose body does
    not write to the store: the bound, re-read at every test in the source,
    stays what it was at the first. *)
Fixpoint for_each {S A B} (body : B -> A -> M S B) (l : list A) (acc : B) : M S B :=
  match l with
  | [] => ret acc
  | x :: rest => acc' <- body acc x ;; for_each body rest acc'
  end.

Definition for_each_index {B} (body : B -> nat -> M Storage B) (acc : B) : M Storage B :=
  n <- length ;;
  for_each body (seq 0 n) acc.

(** The body of [clear]'s loop: [const key = localStorage.key(i); if (key
    && key.startsWith(this.storageKey)) keysToRemove.push(key)].  A string
    is truthy when it is not empty. *)
Definition collect (this : StorageManager) (keysToRemove : list string) (i : nat)
  : M Storage (list string) :=
  k <- key i ;;
  match k with
  | Some k =>
      if negb (String.eqb k "") && startsWith k (storageKey this)
      then ret (keysToRemove ++ [k])%list
      else ret keysToRemove
  | None => ret keysToRemove
  end.

(** [clear()]. *)
Definition clear (this : StorageManager) : M Storage bool :=
  if negb (isAvailable this) then ret false else
  try_catch
    (keysToRemove <- for_each_index (collect this) [] ;;
     for_each (fun _ k => removeItem k) keysToRemove tt ;;
     ret true)
    (fun error => ret false).

(** What a caught error's [message] reads. *)
Definition message (e : exn) : string :=
  match e with
  | Error msg | TypeError msg | RangeError msg | SyntaxError msg => msg
  | DOMException name => name
  end.

(** [getStorageInfo()].  The sizes are string lengths; [key.length] on the
    [null] of a missing key, or [value.length] on that of a missing value,
    would be a TypeError. *)
Definition getStorageInfo (this : StorageManager) : M Storage jsval :=
  if negb (isAvailable this) then ret (JObj [("available", JBool false)]) else
  try_catch
    (sizes <-
       for_each_index
         (fun '(totalSize, appSize) i =>
            k <- key i ;;
            match k with
            | None => throw (TypeError "Cannot read properties of null")
            | Some k =>
                value <- getItem k ;;
                match value with
                | None => throw (TypeError "Cannot read properties of null")
                | Some value =>
                    let itemSize := (String.length k + String.length value)%nat in
                    ret ((totalSize + itemSize)%nat,
                         if startsWith k (storageKey this)
                         then (appSize + itemSize)%nat else appSize)
                end
            end) (0%nat, 0%nat) ;;
     n <- length ;;
     ret (JObj [("available", JBool true);
                ("totalSize", JNum (Z.of_nat (fst sizes)));
                ("appSize", JNum (Z.of_nat (snd sizes)));
                ("itemCount", JNum (Z.of_nat n))]))
    (fun error => ret (JObj [("available", JBool false);
                             ("error", JStr (message error))])).

End StorageManager.

(** ** [server.js] *)

Module Server.
Import JS.

(** One address of a network interface, as [os.networkInterfaces()] lists
    it: the fields the server reads.  [family] is the string [IPv4] or
    [IPv6] (a Number, 4 or 6, in some releases of the runtime). *)
Record Interface : Type := mkInterface {
  address : string;
  family : jsval;
  internal : bool
}.

(** [iface.family === 'IPv4' && !iface.internal]. *)
Definition external_IPv4 (iface : Interface) : bool :=
  match family iface with
  | JStr s => String.eqb s "IPv4"
  | _ => false
  end && negb (internal iface).

(** [Object.keys(networkInterfaces)] and [networkInterfaces[interfaceName]],
    for the object as the list of its own properties in enumeration order. *)
Definition keys (networkInterfaces : list (string * list Interface)) : list string :=
  List.map fst networkInterfaces.

Definition entry (networkInterfaces : list (string * list Interface)) (interfaceName : string)
  : list Interface :=
  match List.find (fun kv => String.eqb interfaceName (fst kv)) networkInterfaces with
  | Some kv => snd kv
  | None => []
  end.

(** The address the listening callback announces to other devices: the
    two nested [forEach] loops over [localIP], which starts as
    [localhost]. *)
Definition localIP (networkInterfaces : list (string * list Interface)) : string :=
  fold_left
    (fun localIP interfaceName =>
       fold_left
         (fun localIP iface => if external_IPv4 iface then address iface else localIP)
         (entry networkInterfaces interfaceName) localIP)
    (keys networkInterfaces) "localhost".

End Server.

(** ** The vocabulary of the properties *)

Module TaskTerms.
Import JS Date Runtime Task.

(** The spec's ValidationError is the plain [Error] Task.js throws. *)
Definition ValidationError (msg : string) : exn := Error msg.

(** The arguments the constructor accepts. *)
Definition valid_title (v : jsval) : Prop := exists s, v = JStr s /\ trim s <> "".

Definition valid_description (v : jsval) : Prop :=
  truthy v = false \/ exists d, v = JStr d.

Definition valid_priority (v : jsval) : Prop :=
  v = JUndefined \/ includes validPriorities v = true.

(** The world after the constructor's three clock readings and one draw. *)
Definition after_constructor (w : World) : World :=
  mkWorld (clock w) (S (S (S (ticks w)))) (entropy w) (S (draws w)).

(** The Task it builds. *)
Definition constructed (title description priority : jsval) (w : World) : Task :=
  mkTask
    (JStr ("task_" +:+ Number_toString (clock w (ticks w)) +:+ "_" +:+ entropy w (draws w)))
    (match title with JStr s => trim s | _ => "" end)
    (match description with JStr d => trim d | _ => "" end)
    (match priority with JUndefined => JStr "medium" | _ => priority end)
    (JBool false)
    (DateAt (clock w (S (ticks w))))
    (DateAt (clock w (S (S (ticks w))))).

(** What the data model promises of a Task in memory. *)
Record well_formed (t : Task) : Prop := {
  wf_title : trim (_title t) = _title t /\ _title t <> "";
  wf_description : trim (_description t) = _description t;
  wf_priority : includes validPriorities (_priority t) = true;
  wf_createdAt : exists c, _createdAt t = DateAt c /\ valid_time c;
  wf_updatedAt : exists u, _updatedAt t = DateAt u /\ valid_time u
}.

(** What it promises of the fields that are validated. *)
Definition valid_fields (t : Task) : Prop :=
  trim (_title t) = _title t /\ _title t <> ""
  /\ trim (_description t) = _description t
  /\ includes validPriorities (_priority t) = true.

(** The record [toJSON] gives for a Task with valid dates. *)
Definition record_of (t : Task) (created updated : Z) : jsval :=
  JObj [("id", _id t);
        ("title", JStr (_title t));
        ("description", JStr (_description t));
        ("priority", _priority t);
        ("completed", _completed t);
        ("createdAt", JStr (ISO_of_time created));
        ("updatedAt", JStr (ISO_of_time updated))].

(** The Task an outcome of a method leaves. *)
Definition task_after {A} (r : completion A * (Task * World)) : Task := fst (snd r).

(** [updatedAt >= createdAt], as JavaScript compares two Dates: false when
    either is invalid. *)
Definition ordered (t : Task) : Prop :=
  exists c u, _createdAt t = DateAt c /\ _updatedAt t = DateAt u /\ c <= u.

(** The public mutators, and a caller that goes on after an exception. *)
Inductive operation : Type :=
| MarkComplete
| MarkIncomplete
| UpdateTitle (newTitle : jsval)
| UpdateDescription (newDescription : jsval)
| UpdatePriority (newPriority : jsval).

Definition run (o : operation) : Method unit :=
  match o with
  | MarkComplete => markComplete
  | MarkIncomplete => markIncomplete
  | UpdateTitle v => updateTitle v
  | UpdateDescription v => updateDescription v
  | UpdatePriority v => updatePriority v
  end.

Fixpoint run_all (ops : list operation) (st : Task * World) : Task * World :=
  match ops with
  | [] => st
  | o :: rest => run_all rest (snd (run o st))
  end.

(** The invariant the mutators keep: the two timestamps are in order, and
    the clock will not read earlier than [createdAt]. *)
Definition in_order (st : Task * World) : Prop :=
  exists c u,
    _createdAt (fst st) = DateAt c /\ _updatedAt (fst st) = DateAt u /\ c <= u
    /\ forall j, (ticks (snd st) <= j)%nat -> c <= clock (snd st) j.

End TaskTerms.

Module StorageTerms.
Import JS Runtime Browser StorageManager.

(** The keys [clear] collects: those the test [key && key.startsWith
    (this.storageKey)] lets through. *)
Definition collected (this : StorageManager) (k : string) : bool :=
  negb (String.eqb k "") && startsWith k (storageKey this).

End StorageTerms.

(** ** The vocabulary of the further properties *)

Module Footprint.
Import JS Date Runtime Task Browser StorageManager TaskTerms.

(** The field, besides [updatedAt], that a mutator assigns. *)
Inductive field : Type := Title | Description | Priority | Completed.

Definition target (o : operation) : field :=
  match o with
  | MarkComplete | MarkIncomplete => Completed
  | UpdateTitle _ => Title
  | UpdateDescription _ => Description
  | UpdatePriority _ => Priority
  end.

Definition field_eqb (f g : field) : bool :=
  match f, g with
  | Title, Title | Description, Description | Priority, Priority
  | Completed, Completed => true
  | _, _ => false
  end.

(** No operation of the list assigns field [f]. *)
Definition spares (f : field) (ops : list operation) : bool :=
  forallb (fun o => negb (field_eqb (target o) f)) ops.

(** Whether a character occurs in a string. *)
Fixpoint occurs (c : ascii) (s : string) : bool :=
  match s with
  | EmptyString => false
  | String c' rest => Ascii.eqb c c' || occurs c rest
  end.

(** The last [markComplete] or [markIncomplete] of a list of operations:
    [Some true] for the one, [Some false] for the other, [None] when the
    list has neither. *)
Fixpoint last_mark (ops : list operation) : option bool :=
  match ops with
  | [] => None
  | o :: rest =>
      match last_mark rest with
      | Some b => Some b
      | None =>
          match o with
          | MarkComplete => Some true
          | MarkIncomplete => Some false
          | _ => None
          end
      end
  end.

(** Both timestamps are valid Dates. *)
Definition dated (t : Task) : Prop :=
  (exists c, _createdAt t = DateAt c /\ valid_time c)
  /\ (exists u, _updatedAt t = DateAt u /\ valid_time u).

(** [updatedAt] is a Date no later than any reading the clock has yet to
    give. *)
Definition settled (st : Task * World) : Prop :=
  exists u, _updatedAt (fst st) = DateAt u
            /\ forall j, (ticks (snd st) <= j)%nat -> u <= clock (snd st) j.

(** A value that is truthy and not a string: a Number other than 0,
    [true], an array or an object. *)
Definition truthy_non_string (v : jsval) : bool :=
  truthy v && match v with JStr _ => false | _ => true end.

(** The key the availability probe writes and removes, and whether the
    store takes the write. *)
Definition testKey : string := "__storage_test__".

Definition probe_fits (st : Storage) : bool :=
  enabled st && (used (<[testKey := "test"]> (items st)) <=? quota st)%N.

(** The sizes [getStorageInfo] adds up. *)
Definition item_size (kv : string * string) : nat :=
  (String.length (fst kv) + String.length (snd kv))%nat.

Definition total_size (m : gmap string string) : nat :=
  sum_list_with item_size (map_to_list m).

Definition app_size (this : StorageManager) (m : gmap string string) : nat :=
  sum_list_with item_size
    (List.filter (fun kv => startsWith (fst kv) (storageKey this)) (map_to_list m)).

Definition report (totalSize appSize itemCount : nat) : jsval :=
  JObj [("available", JBool true);
        ("totalSize", JNum (Z.of_nat totalSize));
        ("appSize", JNum (Z.of_nat appSize));
        ("itemCount", JNum (Z.of_nat itemCount))].

End Footprint.

(** ** A reference engine, for running the model on concrete inputs *)

Module Reference.
Import JS Date Runtime Browser.
Local Open Scope N_scope.
Local Open Scope Z_scope.

(** An engine whose date parser knows the common form only. *)
Definition strict_engine : Engine := {| heuristic_parse := fun _ => InvalidDate |}.

(** [JSON] for the values of [jsval]: integers for Numbers, code units
    below U+0100 in strings.  A numeral with a fraction or an exponent is
    outside this model's Numbers and is refused. *)
Definition dquote : ascii := ascii_of_N 34.
Definition backslash : ascii := ascii_of_N 92.

Definition hex_char (n : N) : ascii :=
  if (n <? 10)%N then ascii_of_N (48 + n) else ascii_of_N (87 + n).

Definition hex_value (c : ascii) : option N :=
  let n := N_of_ascii c in
  if ((48 <=? n) && (n <=? 57))%N then Some (n - 48)%N
  else if ((97 <=? n) && (n <=? 102))%N then Some (n - 87)%N
  else if ((65 <=? n) && (n <=? 70))%N then Some (n - 55)%N
  else None.

(** QuoteJSONString, character by character. *)
Definition quote_char (c : ascii) : string :=
  let n := N_of_ascii c in
  if (n =? 34)%N then String backslash (String dquote "")
  else if (n =? 92)%N then String backslash (String backslash "")
  else if (n =? 8)%N then String backslash "b"
  else if (n =? 9)%N then String backslash "t"
  else if (n =? 10)%N then String backslash "n"
  else if (n =? 12)%N then String backslash "f"
  else if (n =? 13)%N then String backslash "r"
  else if (n <? 32)%N then
    String backslash ("u00" +:+ String (hex_char (n / 16)) (String (hex_char (n mod 16)) ""))
  else String c "".

Fixpoint quote_body (s : string) : string :=
  match s with
  | EmptyString => String dquote ""
  | String c r => quote_char c +:+ quote_body r
  end.

Definition quote (s : string) : string := String dquote (quote_body s).

(** [JSON.stringify(v)]; [None] is [undefined].  An [undefined] element
    of an array prints as [null], an [undefined] property is left out, and
    a Number that is not finite prints as [null]. *)
Fixpoint stringify (v : jsval) : option string :=
  match v with
  | JUndefined => None
  | JNull => Some "null"
  | JBool true => Some "true"
  | JBool false => Some "false"
  | JNum n => Some (if overflows (Z.abs n) then "null" else Number_text n)
  | JStr s => Some (quote s)
  | JArr elems =>
      Some ("[" +:+ join "," (List.map (fun e => default "null" (stringify e)) elems) +:+ "]")
  | JObj props =>
      Some ("{" +:+ join ","
              (List.flat_map
                 (fun kv => match stringify (snd kv) with
                            | Some text => [quote (fst kv) +:+ ":" +:+ text]
                            | None => []
                            end) props) +:+ "}")
  end.

Definition is_json_space (c : ascii) : bool :=
  match N_of_ascii c with
  | 9 | 10 | 13 | 32 => true
  | _ => false
  end%N.

Fixpoint skip_space (s : string) : string :=
  match s with
  | String c r => if is_json_space c then skip_space r else s
  | EmptyString => EmptyString
  end.

Definition unescape (c : ascii) : option ascii :=
  match N_of_ascii c with
  | 34 => Some dquote
  | 92 => Some backslash
  | 47 => Some "/"%char
  | 98 => Some (ascii_of_N 8)
  | 102 => Some (ascii_of_N 12)
  | 110 => Some (ascii_of_N 10)
  | 114 => Some (ascii_of_N 13)
  | 116 => Some (ascii_of_N 9)
  | _ => None
  end%N.

(** The characters of a string literal after its opening quote. *)
Fixpoint parse_string_body (s : string) : option (string * string) :=
  match s with
  | EmptyString => None
  | String c r =>
      if Ascii.eqb c dquote then Some (EmptyString, r)
      else if Ascii.eqb c backslash then
        match r with
        | String "u" (String h1 (String h2 (String h3 (String h4 r')))) =>
            a ← hex_value h1; b ← hex_value h2; c ← hex_value h3; d ← hex_value h4;
            if ((a =? 0) && (b =? 0))%N then
              '(body, rest) ← parse_string_body r';
              Some (String (ascii_of_N (16 * c + d)) body, rest)
            else None
        | String e r' =>
            ch ← unescape e;
            '(body, rest) ← parse_string_body r';
            Some (String ch body, rest)
        | EmptyString => None
        end
      else if (N_of_ascii c <? 32)%N then None
      else '(body, rest) ← parse_string_body r; Some (String c body, rest)
  end.

Fixpoint read_number (acc : Z) (s : string) : Z * string :=
  match s with
  | String c r =>
      match digit_value c with
      | Some d => read_number (10 * acc + d) r
      | None => (acc, s)
      end
  | EmptyString => (acc, s)
  end.

Definition is_digit (c : ascii) : bool :=
  match digit_value c with Some _ => true | None => false end.

(** An integer numeral: no leading zero, no fraction, no exponent. *)
Definition parse_number (s : string) : option (Z * string) :=
  let '(negative, s) := match s with
                        | String "-" r => (true, r)
                        | _ => (false, s)
                        end in
  match s with
  | String c r =>
      d ← digit_value c;
      let '(n, rest) := if d =? 0 then (0, r) else read_number d r in
      match rest with
      | String c' _ =>
          if is_digit c' || Ascii.eqb c' "." || Ascii.eqb c' "e" || Ascii.eqb c' "E"
          then None else Some (if negative then - n else n, rest)
      | EmptyString => Some (if negative then - n else n, rest)
      end
  | EmptyString => None
  end.

Fixpoint expect_word (w s : string) : option string :=
  match w, s with
  | EmptyString, _ => Some s
  | String a w', String b s' => if Ascii.eqb a b then expect_word w' s' else None
  | String _ _, EmptyString => None
  end.

(** A later property of the same name replaces the earlier one's value. *)
Fixpoint set_prop (k : string) (v : jsval) (props : list (string * jsval))
  : list (string * jsval) :=
  match props with
  | [] => [(k, v)]
  | (k', v') :: rest =>
      if String.eqb k k' then (k, v) :: rest else (k', v') :: set_prop k v rest
  end.

Fixpoint parse_value (fuel : nat) (s : string) : option (jsval * string) :=
  match fuel with
  | O => None
  | S fuel =>
      match skip_space s with
      | EmptyString => None
      | String c r =>
          if Ascii.eqb c "n" then r' ← expect_word "ull" r; Some (JNull, r')
          else if Ascii.eqb c "t" then r' ← expect_word "rue" r; Some (JBool true, r')
          else if Ascii.eqb c "f" then r' ← expect_word "alse" r; Some (JBool false, r')
          else if Ascii.eqb c dquote then
            '(str, r') ← parse_string_body r; Some (JStr str, r')
          else if Ascii.eqb c "[" then
            match skip_space r with
            | String "]" r' => Some (JArr [], r')
            | _ => '(elems, r') ← parse_elements fuel r; Some (JArr elems, r')
            end
          else if Ascii.eqb c "{" then
            match skip_space r with
            | String "}" r' => Some (JObj [], r')
            | _ =>
                '(members, r') ← parse_members fuel r;
                Some (JObj (fold_left (fun props kv => set_prop (fst kv) (snd kv) props)
                              members []), r')
            end
          else '(n, r') ← parse_number (String c r); Some (JNum n, r')
      end
  end
with parse_elements (fuel : nat) (s : string) : option (list jsval * string) :=
  match fuel with
  | O => None
  | S fuel =>
      '(v, r) ← parse_value fuel s;
      match skip_space r with
      | String "," r' => '(rest, r'') ← parse_elements fuel r'; Some (v :: rest, r'')
      | String "]" r' => Some ([v], r')
      | _ => None
      end
  end
with parse_members (fuel : nat) (s : string) : option (list (string * jsval) * string) :=
  match fuel with
  | O => None
  | S fuel =>
      match skip_space s with
      | String c r =>
          if Ascii.eqb c dquote then
            '(k, r) ← parse_string_body r;
            match skip_space r with
            | String ":" r =>
                '(v, r) ← parse_value fuel r;
                match skip_space r with
                | String "," r' =>
                    '(rest, r'') ← parse_members fuel r'; Some ((k, v) :: rest, r'')
                | String "}" r' => Some ([(k, v)], r')
                | _ => None
                end
            | _ => None
            end
          else None
      | EmptyString => None
      end
  end.

(** [JSON.parse(text)]: one value, then nothing but white space.  Every
    call of the parser consumes a character, so twice the length of the
    text is more recursion than any text needs. *)
Definition parse (text : string) : completion jsval :=
  match parse_value (2 * String.length text + 2) text with
  | Some (v, rest) =>
      match skip_space rest with
      | EmptyString => Normal v
      | _ => Throw (SyntaxError "Unexpected non-whitespace character after JSON")
      end
  | None => Throw (SyntaxError "Unexpected token in JSON")
  end.

Definition json : JSON := {|
  JSON_stringify v := Normal (stringify v);
  JSON_parse := parse
|}.

(** A process started at 2024-06-10T06:13:20.000Z: its clock gains a
    millisecond at each of the first readings and then stands still. *)
Definition readings : list Z :=
  [1718000000000; 1718000000001; 1718000000002; 1718000000003; 1718000000004;
   1718000000005; 1718000000006; 1718000000007].

Definition world0 : World :=
  mkWorld (fun i => nth i readings 1718000000008) 0 (fun _ => "k3j9x0q1z") 0.

(** What [new Task('  Buy milk ', ' 2 litres, semi-skimmed ')] builds in
    it, and the world it leaves. *)
Definition sample_task : Task.Task :=
  Task.mkTask (JStr "task_1718000000000_k3j9x0q1z") "Buy milk" "2 litres, semi-skimmed"
    (JStr "medium") (JBool false) (DateAt 1718000000001) (DateAt 1718000000002).

Definition world1 : World := TaskTerms.after_constructor world0.

Definition sample_record : jsval :=
  JObj [("id", JStr "task_1718000000000_k3j9x0q1z");
        ("title", JStr "Buy milk");
        ("description", JStr "2 litres, semi-skimmed");
        ("priority", JStr "medium");
        ("completed", JBool false);
        ("createdAt", JStr "2024-06-10T06:13:20.001Z");
        ("updatedAt", JStr "2024-06-10T06:13:20.002Z")].

(** Stored records that were not written by [toJSON]: one updated the day
    before it was created, one with a priority outside the three, one
    whose description is a Number, one whose [completed] is a string. *)
Definition backdated_record : jsval :=
  JObj [("id", JStr "task_1");
        ("title", JStr "Buy milk");
        ("description", JStr "");
        ("priority", JStr "low");
        ("completed", JBool false);
        ("createdAt", JStr "2024-01-02T00:00:00.000Z");
        ("updatedAt", JStr "2024-01-01T00:00:00.000Z")].


(** A priority with no conversion to a string, and a stored record that
    has it. *)
Definition unprintable : jsval := JObj [("toString", JNum 1)].

Definition unprintable_record : jsval :=
  JObj [("id", JStr "task_1");
        ("title", JStr "Buy milk");
        ("description", JStr "");
        ("priority", unprintable);
        ("completed", JBool false);
        ("createdAt", JStr "2024-01-01T00:00:00.000Z");
        ("updatedAt", JStr "2024-01-01T00:00:00.000Z")].

Definition numeric_description_record : jsval :=
  JObj [("id", JStr "task_1");
        ("title", JStr "Buy milk");
        ("description", JNum 5);
        ("priority", JStr "low");
        ("completed", JBool true);
        ("createdAt", JStr "2024-01-01T00:00:00.000Z");
        ("updatedAt", JStr "2024-01-01T00:00:00.000Z")].

Definition yes_props : list (string * jsval) :=
  [("id", JStr "task_1");
   ("title", JStr "Buy milk");
   ("description", JNull);
   ("priority", JStr "high");
   ("completed", JStr "yes");
   ("createdAt", JStr "2024-01-01T00:00:00.000Z");
   ("updatedAt", JStr "2024-01-01T00:00:00.000Z")].

(** A browser's empty store with room for five million characters, one
    that refuses every access, and one with room for a hundred. *)
Definition roomy : Storage := mkStorage ∅ 5000000 true.
Definition blocked : Storage := mkStorage ∅ 5000000 false.
Definition cramped : Storage := mkStorage ∅ 100 true.

(** The adapter [new StorageManager()] makes on a store that took the
    probe, and the one it makes on [blocked]. *)
Definition adapter : StorageManager.StorageManager :=
  StorageManager.mkStorageManager "taskManagementApp" true.
Definition degraded : StorageManager.StorageManager :=
  StorageManager.mkStorageManager "taskManagementApp" false.

(** A store that holds two of the adapter's keys and one of another
    script's. *)
Definition shared : Storage :=
  mkStorage (<["taskManagementApp_a" := "1"]>
               (<["taskManagementApp_b" := "2"]> (<["theme" := "dark"]> ∅)))
    5000000 true.

(** An adapter with the empty prefix, and a store with the empty key. *)
Definition unprefixed : StorageManager.StorageManager :=
  StorageManager.mkStorageManager "" true.
Definition with_empty_key : Storage :=
  mkStorage (<["" := "x"]> (<["a" := "1"]> ∅)) 5000000 true.

(** A second adapter, whose prefix extends the first one's. *)
Definition user_adapter : StorageManager.StorageManager :=
  StorageManager.mkStorageManager "taskManagementApp_user" true.

(** A stored record with a title and two timestamps only, and one with a
    title only. *)
Definition sparse_record : jsval :=
  JObj [("title", JStr " Call Ada ");
        ("createdAt", JStr "2024-01-01T00:00:00.000Z");
        ("updatedAt", JStr "2024-01-02T00:00:00.000Z")].

Definition undated_props : list (string * jsval) := [("title", JStr "Buy milk")].

(** The addresses of a host with a loopback interface, a wired one and a
    wireless one. *)
Definition host_interfaces : list (string * list Server.Interface) :=
  [("lo", [Server.mkInterface "127.0.0.1" (JStr "IPv4") true;
           Server.mkInterface "::1" (JStr "IPv6") true]);
   ("eth0", [Server.mkInterface "192.168.1.20" (JStr "IPv4") false;
             Server.mkInterface "fe80::1c2d" (JStr "IPv6") false]);
   ("wlan0", [Server.mkInterface "10.0.0.7" (JStr "IPv4") false])].

End Reference.

(* ===================================================================== *)
(** * Part II. Properties                                                 *)
(* ===================================================================== *)

(** ** Strings *)

Module JSFacts.
Import JS.

Lemma append_String c s r : String c s +:+ r = String c (s +:+ r).
Proof. reflexivity. Qed.

Lemma eqb_empty_false c s : String.eqb (String c s) "" = false.
Proof. reflexivity. Qed.

(** What [trimStart] leaves starts with a character that is not white
    space, if it is not empty. *)
Lemma trimStart_head s :
  trimStart s = "" \/
  exists c r, trimStart s = String c r /\ is_whitespace c = false.
Proof.
  induction s as [|c s IH]; cbn [trimStart]; [now left|].
  destruct (is_whitespace c) eqn:Hc; [exact IH|].
  right. now exists c, s.
Qed.

Lemma trimEnd_keeps_head c s :
  is_whitespace c = false -> trimEnd (String c s) = String c (trimEnd s).
Proof.
  intros Hc. cbn [trimEnd]. rewrite Hc. now destruct (trimEnd s).
Qed.

Lemma trimEnd_idempotent s : trimEnd (trimEnd s) = trimEnd s.
Proof.
  induction s as [|c s IH]; [reflexivity|].
  cbn [trimEnd]. destruct (trimEnd s) as [|c' s'] eqn:Hs.
  - destruct (is_whitespace c) eqn:Hc; [reflexivity|].
    cbn [trimEnd]. now rewrite Hc.
  - cbn [trimEnd] in *. fold trimEnd in *. rewrite IH. reflexivity.
Qed.

(** [trim] is idempotent: a trimmed string trims to itself. *)
Lemma trim_idempotent s : trim (trim s) = trim s.
Proof.
  unfold trim.
  destruct (trimStart_head s) as [-> | (c & r & -> & Hc)]; [reflexivity|].
  rewrite (trimEnd_keeps_head c r Hc). cbn [trimStart]. rewrite Hc.
  rewrite (trimEnd_keeps_head c _ Hc). now rewrite trimEnd_idempotent.
Qed.

(** The empty string is the only falsy string. *)
Lemma truthy_JStr s : truthy (JStr s) = negb (String.eqb s "").
Proof. reflexivity. Qed.

Lemma eqb_empty s : String.eqb s "" = true <-> s = "".
Proof. apply String.eqb_eq. Qed.

Lemma eqb_empty_neq s : String.eqb s "" = false <-> s <> "".
Proof. apply String.eqb_neq. Qed.


(** Running a [bind]. *)
Lemma run_bind {S A B} (m : M S A) (k : A -> M S B) s a s' :
  m s = (Normal a, s') -> bind m k s = k a s'.
Proof. unfold bind. now intros ->. Qed.

Lemma run_bind_throw {S A B} (m : M S A) (k : A -> M S B) s e s' :
  m s = (Throw e, s') -> bind m k s = (Throw e, s').
Proof. unfold bind. now intros ->. Qed.

Lemma run_lift {S A} (c : completion A) (s : S) : lift c s = (c, s).
Proof. reflexivity. Qed.

Lemma run_try_normal {S A} (body : M S A) handler s a s' :
  body s = (Normal a, s') -> try_catch body handler s = (Normal a, s').
Proof. unfold try_catch. now intros ->. Qed.

Lemma run_try_throw {S A} (body : M S A) handler s e s' :
  body s = (Throw e, s') -> try_catch body handler s = handler e s'.
Proof. unfold try_catch. now intros ->. Qed.

(** One statement of a sequence: [step tac] runs the first computation of
    a [bind], [tac] showing that it ends normally. *)
Ltac step tac := erewrite run_bind; [| solve [tac]]; cbv beta iota.

Ltac step_throw tac := erewrite run_bind_throw; [| solve [tac]].

Ltac step_in H tac := erewrite run_bind in H; [| solve [tac]]; cbv beta iota in H.

Ltac step_throw_in H tac := erewrite run_bind_throw in H; [| solve [tac]].

End JSFacts.

(** ** Dates: [toISOString] and parsing are inverse on time values *)

Module DateFacts.
Import JS Date JSFacts.

Lemma digit_value_char d : 0 <= d < 10 -> digit_value (digit_char d) = Some d.
Proof.
  intros H. unfold digit_value, digit_char.
  assert (d = 0 \/ d = 1 \/ d = 2 \/ d = 3 \/ d = 4 \/ d = 5 \/ d = 6 \/ d = 7
          \/ d = 8 \/ d = 9) by lia.
  intuition subst; reflexivity.
Qed.

Lemma digit_char_not_sign d :
  0 <= d < 10 ->
  Ascii.eqb (digit_char d) "+" = false /\ Ascii.eqb (digit_char d) "-" = false.
Proof.
  intros H.
  assert (d = 0 \/ d = 1 \/ d = 2 \/ d = 3 \/ d = 4 \/ d = 5 \/ d = 6 \/ d = 7
          \/ d = 8 \/ d = 9) by lia.
  intuition subst; split; reflexivity.
Qed.

(** Reading [k] digits off a [k]-digit field continues the numeral. *)
Lemma read_digits_pad k : forall n acc rest,
  read_digits k acc (pad k n +:+ rest)
  = Some (acc * 10 ^ Z.of_nat k + n mod 10 ^ Z.of_nat k, rest).
Proof.
  induction k as [|k IH]; intros n acc rest.
  - cbn [pad read_digits]. rewrite Z.mod_1_r. do 2 f_equal. lia.
  - cbn [pad read_digits]. rewrite append_String.
    rewrite digit_value_char by (apply Z.mod_pos_bound; lia).
    rewrite IH. do 2 f_equal.
    rewrite Nat2Z.inj_succ, Z.pow_succ_r by lia.
    set (p := 10 ^ Z.of_nat k). assert (0 < p) by (apply Z.pow_pos_nonneg; lia).
    rewrite (Z.mul_comm 10 p), Z.rem_mul_r by lia. lia.
Qed.

Lemma read_pad k n rest :
  0 <= n < 10 ^ Z.of_nat k ->
  read_digits k 0 (pad k n +:+ rest) = Some (n, rest).
Proof.
  intros H. rewrite read_digits_pad, Z.mod_small by lia. f_equal.
Qed.

Lemma expect_String c rest : expect c (String c rest) = Some rest.
Proof. unfold expect. now rewrite Ascii.eqb_refl. Qed.

(** A year is one day longer when it is a leap year. *)
Lemma DayFromYear_succ y : DayFromYear (y + 1) = DayFromYear y + 365 + leap_days y.
Proof.
  unfold leap_days, InLeapYear, DayFromYear.
  destruct (Z.eqb_spec (y mod 4) 0), (Z.eqb_spec (y mod 100) 0),
    (Z.eqb_spec (y mod 400) 0);
    cbn [andb orb negb]; Z.div_mod_to_equations; lia.
Qed.

(** [YearFromDay d] is the year that holds day [d]. *)
Lemma YearFromDay_spec d :
  DayFromYear (YearFromDay d) <= d < DayFromYear (YearFromDay d + 1).
Proof.
  unfold YearFromDay.
  set (y := 1970 + d * 400 / 146097).
  assert (DayFromYear (y - 1) <= d < DayFromYear (y + 2)) as Hest
    by (subst y; unfold DayFromYear; Z.div_mod_to_equations; lia).
  destruct (Z.leb_spec (DayFromYear (y + 1)) d).
  - replace (y + 1 + 1) with (y + 2) by lia. lia.
  - destruct (Z.ltb_spec d (DayFromYear y)).
    + replace (y - 1 + 1) with y by lia. lia.
    + lia.
Qed.

Lemma DayFromYear_monotone a b : a <= b -> DayFromYear a <= DayFromYear b.
Proof. intros Hab. unfold DayFromYear. Z.div_mod_to_equations. lia. Qed.

(** It is the largest year that starts on or before [d]. *)
Lemma YearFromDay_largest d y : DayFromYear y <= d -> y <= YearFromDay d.
Proof.
  intros Hy. pose proof (YearFromDay_spec d) as [_ Hlt].
  destruct (Z.le_gt_cases y (YearFromDay d)) as [|Hgt]; [assumption|exfalso].
  pose proof (DayFromYear_monotone (YearFromDay d + 1) y ltac:(lia)). lia.
Qed.

Lemma YearFromDay_range d :
  -100000000 <= d <= 100000000 -> -271821 <= YearFromDay d <= 275760.
Proof.
  intros Hd. pose proof (YearFromDay_spec d) as H. revert H.
  generalize (YearFromDay d). intros y. unfold DayFromYear.
  Z.div_mod_to_equations. lia.
Qed.

Lemma read_year_string y rest :
  -999999 <= y <= 999999 ->
  read_year (year_string y +:+ rest) = Some (y, rest).
Proof.
  intros Hy. unfold year_string.
  destruct ((0 <=? y) && (y <=? 9999)) eqn:Hsmall.
  - apply andb_true_iff in Hsmall as [H0 H9]. apply Z.leb_le in H0, H9.
    pose proof (read_digits_pad 4 y 0 rest) as Hr.
    rewrite Z.mod_small in Hr by (change (10 ^ Z.of_nat 4) with 10000; lia).
    change (pad 4 y) with (String (digit_char ((y / 10 ^ 3) mod 10)) (pad 3 y)) in *.
    rewrite append_String in *. unfold read_year.
    destruct (digit_char_not_sign ((y / 10 ^ 3) mod 10)) as [-> ->];
      [apply Z.mod_pos_bound; lia|].
    rewrite Hr. do 2 f_equal; lia.
  - pose proof (read_digits_pad 6 (Z.abs y) 0 rest) as Hr.
    rewrite Z.mod_small in Hr by (change (10 ^ Z.of_nat 6) with 1000000; lia).
    destruct (Z.ltb_spec y 0).
    + rewrite append_String. unfold read_year.
      change (Ascii.eqb "-" "+") with false. change (Ascii.eqb "-" "-") with true.
      cbv iota. rewrite Hr.
      destruct (Z.eqb_spec (0 * 10 ^ Z.of_nat 6 + Z.abs y) 0); [lia|].
      do 2 f_equal; lia.
    + rewrite append_String. unfold read_year.
      change (Ascii.eqb "+" "+") with true.
      cbv iota. rewrite Hr. do 2 f_equal; lia.
Qed.

Ltac eval_month_start L :=
  match goal with
  | |- context [month_start L (?a + 1)] =>
      let v := eval vm_compute in (a + 1) in change (a + 1) with v
  end; cbv [month_start].

(** The month of a day within the year, and where that month starts. *)
Lemma MonthFromDay_spec L d :
  (L = 0 \/ L = 1) -> 0 <= d < 365 + L ->
  0 <= MonthFromDay L d <= 11 /\
  month_start L (MonthFromDay L d) <= d < month_start L (MonthFromDay L d + 1).
Proof.
  intros HL Hd. unfold MonthFromDay.
  repeat match goal with
         | |- context [?a <? ?b] => destruct (Z.ltb_spec a b)
         end; eval_month_start L; lia.
Qed.

Lemma month_length L m :
  (L = 0 \/ L = 1) -> 0 <= m <= 11 -> month_start L (m + 1) - month_start L m <= 31.
Proof.
  intros HL Hm.
  assert (m = 0 \/ m = 1 \/ m = 2 \/ m = 3 \/ m = 4 \/ m = 5 \/ m = 6 \/ m = 7
          \/ m = 8 \/ m = 9 \/ m = 10 \/ m = 11) as Hcases by lia.
  clear Hm.
  repeat (destruct Hcases as [-> | Hcases]); try subst m; eval_month_start L; lia.
Qed.

(** Parsing the text of [toISOString] gives the time value back. *)
Theorem parse_iso_ISO_of_time t :
  valid_time t -> parse_iso (ISO_of_time t) = Some t.
Proof.
  unfold valid_time, maxTime. intros Ht. unfold ISO_of_time.
  assert (-100000000 <= Day t <= 100000000) as Hd
    by (unfold Day, msPerDay; Z.div_mod_to_equations; lia).
  pose proof (YearFromDay_range _ Hd) as Hy.
  pose proof (YearFromDay_spec (Day t)) as Hs.
  rewrite DayFromYear_succ in Hs.
  set (y := YearFromDay (Day t)) in *.
  assert (leap_days y = 0 \/ leap_days y = 1) as HL
    by (unfold leap_days; destruct (InLeapYear y); auto).
  set (L := leap_days y) in *.
  set (d := Day t - DayFromYear y) in *.
  destruct (MonthFromDay_spec L d HL ltac:(lia)) as [Hm Hmd].
  pose proof (month_length L _ HL Hm) as Hlen.
  set (m := MonthFromDay L d) in *.
  set (dd := d - month_start L m + 1) in *.
  assert (0 <= HourFromTime t < 24 /\ 0 <= MinFromTime t < 60
          /\ 0 <= SecFromTime t < 60 /\ 0 <= msFromTime t < 1000)
    as (Hh & Hmi & Hss & Hms)
    by (unfold HourFromTime, MinFromTime, SecFromTime, msFromTime;
        repeat split; apply Z.mod_pos_bound; lia).
  assert (MakeTime y (m + 1) dd (HourFromTime t) (MinFromTime t) (SecFromTime t)
            (msFromTime t) = t) as Hmake.
  { unfold MakeTime. replace (m + 1 - 1) with m by lia. fold L.
    replace (DayFromYear y + month_start L m + dd - 1) with (Day t) by (subst dd d; lia).
    clear. unfold Day, msPerDay, HourFromTime, MinFromTime, SecFromTime, msFromTime.
    Z.div_mod_to_equations. lia. }
  assert (fields_ok y (m + 1) dd (HourFromTime t) (MinFromTime t) (SecFromTime t) = true)
    as Hok.
  { unfold fields_ok. replace (m + 1 - 1) with m by lia. fold L.
    repeat (apply andb_true_intro; split); apply Z.leb_le; subst dd; lia. }
  unfold parse_iso.
  rewrite read_year_string by lia. cbn [mbind option_bind].
  repeat (first
    [ rewrite read_pad by (first [change (10 ^ Z.of_nat 2) with 100
                                 | change (10 ^ Z.of_nat 3) with 1000]; subst dd; lia)
    | change (String ?c "" +:+ ?x) with (String c x); rewrite expect_String ];
    cbn [mbind option_bind]).
  now rewrite Hok, Hmake.
Qed.

Lemma TimeClip_valid t : valid_time t -> TimeClip t = DateAt t.
Proof.
  unfold valid_time, TimeClip. intros [H1 H2].
  apply Z.leb_le in H1, H2. now rewrite H1, H2.
Qed.

(** [new Date(d.toISOString())] is the date [d], on every engine. *)
Lemma new_Date_from_toISOString `{Engine} t :
  valid_time t -> new_Date_from (JStr (ISO_of_time t)) = Normal (DateAt t).
Proof.
  intros Ht. cbn [new_Date_from]. unfold Date_parse.
  rewrite parse_iso_ISO_of_time by assumption. f_equal. now apply TimeClip_valid.
Qed.

End DateFacts.

(** ** The Task entity *)

Module TaskSpec.
Import JS Date Runtime Task TaskTerms JSFacts DateFacts.

Lemma blank_valid_title what v : valid_title v -> blank what v = Normal false.
Proof.
  intros (s & -> & Hs). unfold blank. rewrite truthy_JStr.
  destruct (String.eqb s "") eqn:He.
  - apply eqb_empty in He. now subst s.
  - cbn. apply eqb_empty_neq in Hs. now rewrite Hs.
Qed.

Lemma blank_false_inv what v : blank what v = Normal false -> valid_title v.
Proof.
  unfold blank. destruct (truthy v) eqn:Ht; cbn; [|discriminate].
  destruct v; cbn; try discriminate.
  intros [= He]. exists s. split; [reflexivity|]. now apply eqb_empty_neq.
Qed.

Lemma trim_falsy d : truthy (JStr d) = false -> trim d = "".
Proof.
  rewrite truthy_JStr. intros H. apply negb_false_iff, eqb_empty in H. now subst d.
Qed.

Lemma run_generateId w :
  _generateId w
  = (Normal ("task_" +:+ Number_toString (clock w (ticks w)) +:+ "_" +:+ entropy w (draws w)),
     mkWorld (clock w) (S (ticks w)) (entropy w) (S (draws w))).
Proof. reflexivity. Qed.

Lemma run_new_Date w : new_Date w = (Normal (DateAt (clock w (ticks w))), tick w).
Proof. reflexivity. Qed.

Lemma run_description what description (w : World) :
  valid_description description ->
  (if truthy description then lift (call_trim what description) else ret "") w
  = (Normal (match description with JStr d => trim d | _ => "" end), w).
Proof.
  intros [Hf | (d & ->)].
  - rewrite Hf. destruct description; try reflexivity. now rewrite (trim_falsy _ Hf).
  - destruct (truthy (JStr d)) eqn:Hd; [reflexivity|]. now rewrite (trim_falsy _ Hd).
Qed.

Lemma validatePriority_valid p :
  includes validPriorities p = true -> _validatePriority p = Normal p.
Proof. unfold _validatePriority. now intros ->. Qed.


Lemma validatePriority_throws p :
  includes validPriorities p = false -> exists e, _validatePriority p = Throw e.
Proof.
  unfold _validatePriority. intros ->. cbn [negb].
  destruct (ToString p); now eexists.
Qed.

(** On valid arguments the constructor returns the Task [constructed]. *)
Lemma constructor_valid title description priority w :
  valid_title title -> valid_description description -> valid_priority priority ->
  constructor title description priority w
  = (Normal (constructed title description priority w), after_constructor w).
Proof.
  intros Ht Hd Hp. unfold constructor.
  step ltac:(rewrite run_lift, (blank_valid_title _ _ Ht); reflexivity).
  step ltac:(apply run_generateId).
  destruct Ht as (s & -> & Hs).
  step ltac:(reflexivity).
  step ltac:(apply run_description; assumption).
  step ltac:(rewrite run_lift, validatePriority_valid;
             [reflexivity | destruct Hp as [-> | Hp]; [reflexivity|];
                            destruct priority; try discriminate; assumption]).
  step ltac:(apply run_new_Date).
  step ltac:(apply run_new_Date).
  reflexivity.
Qed.

(** It returns a Task on no other arguments. *)
Lemma constructor_inv title description priority w t w' :
  constructor title description priority w = (Normal t, w') ->
  valid_title title /\ valid_description description /\ valid_priority priority.
Proof.
  unfold constructor. intros H.
  destruct (blank "title" title) as [[|]|e] eqn:Hb.
  - step_in H ltac:(reflexivity). discriminate H.
  - pose proof (blank_false_inv _ _ Hb) as Ht.
    step_in H ltac:(reflexivity).
    step_in H ltac:(apply run_generateId).
    destruct Ht as (s & -> & Hs).
    step_in H ltac:(reflexivity).
    assert (valid_description description) as Hd.
    { destruct (truthy description) eqn:Htr; [|now left].
      destruct description; try discriminate Htr;
        try (step_throw_in H ltac:(reflexivity); discriminate H).
      right. now eexists. }
    step_in H ltac:(apply run_description; assumption).
    repeat split; [now exists s | assumption |].
    destruct (includes validPriorities
                (match priority with JUndefined => JStr "medium" | _ => priority end))
      eqn:Hp.
    + destruct priority; [now left | right; assumption ..].
    + destruct (validatePriority_throws _ Hp) as (e & He).
      step_throw_in H ltac:(rewrite run_lift, He; reflexivity).
      discriminate H.
  - step_throw_in H ltac:(reflexivity). discriminate H.
Qed.

(** *** Serialization *)

Lemma toJSON_dates t c u :
  _createdAt t = DateAt c -> _updatedAt t = DateAt u ->
  toJSON t = Normal (record_of t c u).
Proof. unfold toJSON. now intros -> ->. Qed.

Lemma includes_JStr p :
  includes validPriorities p = true -> exists s, p = JStr s.
Proof. destruct p; try discriminate. now eexists. Qed.

(** Deserializing the record of a well-formed Task gives that Task. *)
Lemma fromJSON_record_of `{Engine} t c u w :
  well_formed t -> _createdAt t = DateAt c -> _updatedAt t = DateAt u ->
  fromJSON (record_of t c u) w = (Normal t, after_constructor w).
Proof.
  intros [[Htrim Hne] Hdesc Hprio (c' & Hc' & Hvc) (u' & Hu' & Hvu)] Hc Hu.
  rewrite Hc in Hc'. rewrite Hu in Hu'. injection Hc' as <-. injection Hu' as <-.
  unfold fromJSON, record_of.
  do 3 step ltac:(reflexivity).
  cbn [lookup_prop String.eqb Ascii.eqb Bool.eqb].
  step ltac:(apply constructor_valid;
             [ exists (_title t); split; [reflexivity | now rewrite Htrim]
             | right; now eexists
             | right; assumption ]).
  do 3 step ltac:(reflexivity).
  cbn [lookup_prop String.eqb Ascii.eqb Bool.eqb].
  step ltac:(rewrite run_lift, new_Date_from_toISOString by assumption; reflexivity).
  step ltac:(reflexivity).
  cbn [lookup_prop String.eqb Ascii.eqb Bool.eqb].
  step ltac:(rewrite run_lift, new_Date_from_toISOString by assumption; reflexivity).
  unfold ret, constructed, set_id, set_completed, set_createdAt, set_updatedAt.
  cbn [_id _title _description _priority _completed _createdAt _updatedAt].
  rewrite Htrim, Hdesc.
  destruct (includes_JStr _ Hprio) as (p & Hp). rewrite Hp.
  destruct t as [i ti de pr co cr up]; cbn in *. now subst.
Qed.

(** A Task fresh from the constructor is well formed. *)
Lemma constructed_well_formed title description priority w :
  clock_valid w ->
  valid_title title -> valid_description description -> valid_priority priority ->
  well_formed (constructed title description priority w).
Proof.
  intros Hclock (s & -> & Hs) Hd Hp. split; cbn.
  - split; [apply trim_idempotent | assumption].
  - destruct description; try reflexivity. apply trim_idempotent.
  - destruct Hp as [-> | Hp]; [reflexivity|].
    destruct priority; try discriminate; assumption.
  - eexists; split; [reflexivity | apply Hclock].
  - eexists; split; [reflexivity | apply Hclock].
Qed.

(** C1.  A Task built by the constructor serializes (with [toJSON]), and
    deserializing that record (with [fromJSON], whatever the clock and the
    random source then give, and on every engine) yields a Task equal to
    the original in all seven fields; serializing it again gives the same
    record. *)
Theorem serialize_deserialize_round_trip `{Engine} title description priority w t w' :
  clock_valid w ->
  constructor title description priority w = (Normal t, w') ->
  exists record,
    toJSON t = Normal record /\
    forall w1, exists t',
      fst (fromJSON record w1) = Normal t' /\ t' = t /\ toJSON t' = Normal record.
Proof.
  intros Hclock Hnew.
  destruct (constructor_inv _ _ _ _ _ _ Hnew) as (Ht & Hd & Hp).
  rewrite constructor_valid in Hnew by assumption. injection Hnew as <- <-.
  pose proof (constructed_well_formed _ _ _ _ Hclock Ht Hd Hp) as Hwf.
  destruct (wf_createdAt _ Hwf) as (c & Hc & _).
  destruct (wf_updatedAt _ Hwf) as (u & Hu & _).
  exists (record_of (constructed title description priority w) c u).
  split; [now apply toJSON_dates|].
  intros w1. eexists. rewrite fromJSON_record_of by assumption.
  split; [reflexivity|]. split; [reflexivity|]. now apply toJSON_dates.
Qed.

(** *** Validation *)



(** [fromJSON] reads three properties and calls the constructor on them;
    what the constructor throws, it throws.  After the constructor it can
    only fail in [new Date(...)], on a timestamp that has no primitive
    value. *)
Lemma fromJSON_constructor `{Engine} data title description priority w :
  Get data "title" = Normal title ->
  Get data "description" = Normal description ->
  Get data "priority" = Normal priority ->
  match constructor title description priority w with
  | (Throw e, w') => fromJSON data w = (Throw e, w')
  | (Normal t, w') =>
      exists id completed created updated,
        Get data "id" = Normal id /\ Get data "completed" = Normal completed /\
        Get data "createdAt" = Normal created /\ Get data "updatedAt" = Normal updated /\
        fromJSON data w
        = match new_Date_from created, new_Date_from updated with
          | Normal c, Normal u =>
              (Normal (set_updatedAt u
                         (set_createdAt c (set_completed completed (set_id id t)))), w')
          | Normal _, Throw e => (Throw e, w')
          | Throw e, _ => (Throw e, w')
          end
  end.
Proof.
  intros Ht Hd Hp. unfold fromJSON. rewrite Ht, Hd, Hp.
  do 3 step ltac:(reflexivity).
  destruct (constructor title description priority w) as [[t|e] w'] eqn:Hnew.
  - step ltac:(eassumption).
    assert (exists v, forall k, Get data k = Normal (v k)) as (v & Hv).
    { destruct data; try discriminate Ht; eexists (fun k => _); intros k; reflexivity. }
    exists (v "id"), (v "completed"), (v "createdAt"), (v "updatedAt").
    rewrite !Hv. repeat split; try reflexivity;
      destruct (new_Date_from (v "createdAt")), (new_Date_from (v "updatedAt"));
      reflexivity.
  - now step_throw ltac:(eassumption).
Qed.

(** A Task [fromJSON] returns is the constructor's, with four fields
    overwritten from the record. *)
Lemma fromJSON_inv `{Engine} data w t w' :
  fromJSON data w = (Normal t, w') ->
  exists title description priority t0 id completed created updated,
    Get data "title" = Normal title /\ Get data "description" = Normal description
    /\ Get data "priority" = Normal priority
    /\ constructor title description priority w = (Normal t0, w')
    /\ Get data "id" = Normal id /\ Get data "completed" = Normal completed
    /\ Get data "createdAt" = Normal created /\ Get data "updatedAt" = Normal updated
    /\ new_Date_from created = Normal (_createdAt t)
    /\ new_Date_from updated = Normal (_updatedAt t)
    /\ t = set_updatedAt (_updatedAt t)
             (set_createdAt (_createdAt t) (set_completed completed (set_id id t0))).
Proof.
  intros Hfrom.
  assert (exists ti de pr, Get data "title" = Normal ti /\ Get data "description" = Normal de
                           /\ Get data "priority" = Normal pr) as (ti & de & pr & Hti & Hde & Hpr).
  { destruct data; cbn in Hfrom; try discriminate Hfrom; repeat eexists. }
  pose proof (fromJSON_constructor data _ _ _ w Hti Hde Hpr) as Hspec.
  destruct (constructor ti de pr w) as [[t0|e] w0] eqn:Hnew; [|congruence].
  destruct Hspec as (i & co & cr & up & Hi & Hco & Hcr & Hup & Heq).
  rewrite Heq in Hfrom.
  destruct (new_Date_from cr) as [c|e] eqn:Hc; [|discriminate Hfrom].
  destruct (new_Date_from up) as [u|e] eqn:Hu; [|discriminate Hfrom].
  injection Hfrom as <- <-.
  exists ti, de, pr, t0, i, co, cr, up. repeat split; assumption.
Qed.



(** *** Completion *)

(** C7, as the code has it.  [markComplete] and [markIncomplete] never
    raise, set [completed], and set [updatedAt] to the clock's reading at
    the call.  Calling one twice gives the Task that calling it once gives,
    except that [updatedAt] holds the second call's reading: the two Tasks
    agree on every other field, and are equal when the clock read the same
    at both calls. *)
Theorem mark_twice t w :
  let once := markComplete (t, w) in
  let twice := (markComplete ;; markComplete)%js (t, w) in
  let once' := markIncomplete (t, w) in
  let twice' := (markIncomplete ;; markIncomplete)%js (t, w) in
  (fst once = Normal tt /\ fst twice = Normal tt
   /\ task_after once = set_updatedAt (DateAt (clock w (ticks w)))
                          (set_completed (JBool true) t)
   /\ task_after twice = set_updatedAt (DateAt (clock w (S (ticks w)))) (task_after once))
  /\ (fst once' = Normal tt /\ fst twice' = Normal tt
      /\ task_after once' = set_updatedAt (DateAt (clock w (ticks w)))
                              (set_completed (JBool false) t)
      /\ task_after twice' = set_updatedAt (DateAt (clock w (S (ticks w)))) (task_after once')).
Proof. cbv zeta. repeat split. Qed.

(** *** Timestamps *)

(** Every mutator either raises before it has written anything, or
    returns having set [updatedAt] to the clock's reading and left
    [createdAt] alone. *)
Lemma run_cases o t w :
  (exists e, run o (t, w) = (Throw e, (t, w)))
  \/ (exists t', run o (t, w)
                 = (Normal tt, (set_updatedAt (DateAt (clock w (ticks w))) t', tick w))
                 /\ _createdAt t' = _createdAt t).
Proof.
  destruct o as [| |v|v|v]; cbn [run].
  - right. now exists (set_completed (JBool true) t).
  - right. now exists (set_completed (JBool false) t).
  - unfold updateTitle. destruct (blank "newTitle" v) as [[|]|e] eqn:Hb.
    + left. eexists. now step ltac:(reflexivity).
    + right. destruct (blank_false_inv _ _ Hb) as (s & -> & Hs).
      exists (set_title (trim s) t).
      now step ltac:(reflexivity).
    + left. eexists. now step_throw ltac:(reflexivity).
  - unfold updateDescription.
    destruct (call_trim "newDescription" v) as [d|e] eqn:Hd, (truthy v) eqn:Hv.
    + right. exists (set_description d t).
      now step ltac:(reflexivity).
    + right. now exists (set_description "" t).
    + left. eexists. now step_throw ltac:(reflexivity).
    + right. now exists (set_description "" t).
  - unfold updatePriority. destruct (_validatePriority v) as [p|e] eqn:Hp.
    + right. exists (set_priority p t). now step ltac:(reflexivity).
    + left. eexists. now step_throw ltac:(reflexivity).
Qed.

Lemma run_in_order o st : in_order st -> in_order (snd (run o st)).
Proof.
  destruct st as [t w]. intros (c & u & Hc & Hu & Hcu & Hclock).
  destruct (run_cases o t w) as [(e & ->) | (t' & -> & Ht')].
  - now exists c, u.
  - exists c, (clock w (ticks w)). cbn in *. rewrite Ht'.
    repeat split; [assumption | now apply Hclock |].
    intros j Hj. apply Hclock. lia.
Qed.

Lemma run_all_in_order ops : forall st, in_order st -> in_order (run_all ops st).
Proof.
  induction ops as [|o ops IH]; intros st Hst; [assumption|].
  cbn [run_all]. now apply IH, run_in_order.
Qed.

Lemma in_order_ordered st : in_order st -> ordered (fst st).
Proof. intros (c & u & Hc & Hu & Hcu & _). now exists c, u. Qed.

(** C5, as the code has it.  Under a clock that does not run backwards,
    [updatedAt >= createdAt] holds of every Task the constructor builds and
    in every state the mutators then take it through.  [fromJSON] gives the
    Task the two timestamps of its record, whatever dates they convert to:
    it is in order exactly when they are, and then stays so as long as the
    clock does not read earlier than its [createdAt]. *)
Theorem updatedAt_not_before_createdAt `{Engine} :
  (forall title description priority w t w' ops,
     clock_monotone w ->
     constructor title description priority w = (Normal t, w') ->
     ordered (fst (run_all ops (t, w'))))
  /\ (forall data w t w',
        fromJSON data w = (Normal t, w') ->
        exists created updated,
          Get data "createdAt" = Normal created
          /\ Get data "updatedAt" = Normal updated
          /\ new_Date_from created = Normal (_createdAt t)
          /\ new_Date_from updated = Normal (_updatedAt t)
          /\ forall c u ops,
               _createdAt t = DateAt c -> _updatedAt t = DateAt u -> c <= u ->
               (forall j, (ticks w' <= j)%nat -> c <= clock w' j) ->
               ordered (fst (run_all ops (t, w')))).
Proof.
  split.
  - intros title description priority w t w' ops Hmono Hnew.
    destruct (constructor_inv _ _ _ _ _ _ Hnew) as (Ht & Hd & Hp).
    rewrite constructor_valid in Hnew by assumption. injection Hnew as <- <-.
    apply in_order_ordered, run_all_in_order.
    exists (clock w (S (ticks w))), (clock w (S (S (ticks w)))). cbn.
    repeat split; [apply Hmono; lia|].
    intros j Hj. apply Hmono. lia.
  - intros data w t w' Hfrom.
    destruct (fromJSON_inv _ _ _ _ Hfrom)
      as (ti & de & pr & t0 & i & co & cr & up & _ & _ & _ & _ & _ & _ & Hcr & Hup & Hc & Hu & _).
    exists cr, up. repeat split; try assumption.
    intros c u ops Hdc Hdu Hcu Hclock.
    apply in_order_ordered, run_all_in_order.
    now exists c, u.
Qed.

(** *** The validated fields *)

Lemma constructed_valid_fields title description priority w :
  valid_title title -> valid_description description -> valid_priority priority ->
  valid_fields (constructed title description priority w).
Proof.
  intros (s & -> & Hs) Hd Hp. repeat split; cbn.
  - apply trim_idempotent.
  - assumption.
  - destruct description; try reflexivity. apply trim_idempotent.
  - destruct Hp as [-> | Hp]; [reflexivity|].
    destruct priority; try discriminate; assumption.
Qed.

Lemma run_valid_fields o t w :
  valid_fields t -> valid_fields (fst (snd (run o (t, w)))).
Proof.
  intros (Htrim & Hne & Hdesc & Hprio).
  destruct o as [| |v|v|v]; cbn [run].
  - repeat split; assumption.
  - repeat split; assumption.
  - unfold updateTitle. destruct (blank "newTitle" v) as [[|]|e] eqn:Hb.
    + step ltac:(reflexivity). repeat split; assumption.
    + destruct (blank_false_inv _ _ Hb) as (s & -> & Hs).
      step ltac:(reflexivity). repeat split; cbn; try assumption.
      apply trim_idempotent.
    + step_throw ltac:(reflexivity). repeat split; assumption.
  - unfold updateDescription.
    destruct (truthy v) eqn:Hv.
    + destruct v; try discriminate Hv;
        try (step_throw ltac:(reflexivity); repeat split; assumption).
      step ltac:(reflexivity). repeat split; cbn; try assumption.
      apply trim_idempotent.
    + step ltac:(reflexivity). repeat split; assumption.
  - unfold updatePriority, _validatePriority.
    destruct (includes validPriorities v) eqn:Hp; cbn [negb].
    + step ltac:(reflexivity). repeat split; assumption.
    + destruct (ToString v); step_throw ltac:(reflexivity); repeat split; assumption.
Qed.

(** The data model's invariants of the validated fields.  A Task that
    the constructor or [fromJSON] returns has a title that is trimmed and
    not empty, a trimmed description, and a priority among low, medium,
    high; and every mutator, whether it returns or raises, leaves a Task
    that still has. *)
Theorem fields_stay_valid `{Engine} :
  (forall title description priority w t w',
     constructor title description priority w = (Normal t, w') -> valid_fields t)
  /\ (forall data w t w', fromJSON data w = (Normal t, w') -> valid_fields t)
  /\ (forall ops t w, valid_fields t -> valid_fields (fst (run_all ops (t, w)))).
Proof.
  assert (forall title description priority w t w',
             constructor title description priority w = (Normal t, w') -> valid_fields t)
    as Hnew.
  { intros title description priority w t w' Hnew.
    destruct (constructor_inv _ _ _ _ _ _ Hnew) as (Ht & Hd & Hp).
    rewrite constructor_valid in Hnew by assumption. injection Hnew as <- <-.
    now apply constructed_valid_fields. }
  split; [exact Hnew|]. split.
  - intros data w t w' Hfrom.
    destruct (fromJSON_inv _ _ _ _ Hfrom)
      as (ti & de & pr & t0 & i & co & cr & up & _ & _ & _ & Hcons & _ & _ & _ & _ & _ & _ & Ht).
    rewrite Ht. exact (Hnew _ _ _ _ _ _ Hcons).
  - intros ops. induction ops as [|o ops IH]; intros t w Hv; [assumption|].
    cbn [run_all]. destruct (run o (t, w)) as [r [t' w'']] eqn:Hrun.
    apply IH. pose proof (run_valid_fields o t w Hv) as Hv'.
    now rewrite Hrun in Hv'.
Qed.

(** C9, as the code has it.  Whenever [fromJSON] returns a Task, its
    [completed] is the record's [completed] property, whatever that is
    ([undefined] when the record has none): nothing checks it.  And it does
    return a Task when the record's title is a string with a character that
    is not white space, its description a string or a falsy value, its
    priority one of the three, and its two timestamps values that
    [new Date] converts. *)
Theorem fromJSON_copies_completed `{Engine} :
  (forall data w t w',
     fromJSON data w = (Normal t, w') ->
     Get data "completed" = Normal (_completed t))
  /\ (forall props w c u,
        valid_title (lookup_prop "title" props) ->
        valid_description (lookup_prop "description" props) ->
        includes validPriorities (lookup_prop "priority" props) = true ->
        new_Date_from (lookup_prop "createdAt" props) = Normal c ->
        new_Date_from (lookup_prop "updatedAt" props) = Normal u ->
        exists t w',
          fromJSON (JObj props) w = (Normal t, w')
          /\ _completed t = lookup_prop "completed" props).
Proof.
  split.
  - intros data w t w' Hfrom.
    destruct (fromJSON_inv _ _ _ _ Hfrom)
      as (ti & de & pr & t0 & i & co & cr & up & _ & _ & _ & _ & _ & Hco & _ & _ & _ & _ & Ht).
    now rewrite Ht.
  - intros props w c u Ht Hd Hp Hc Hu.
    pose proof (fromJSON_constructor (JObj props) _ _ _ w eq_refl eq_refl eq_refl) as Hspec.
    rewrite constructor_valid in Hspec by (try assumption; now right).
    destruct Hspec as (i & co & cr & up & _ & [= <-] & [= <-] & [= <-] & ->).
    rewrite Hc, Hu. now eexists _, _.
Qed.

End TaskSpec.

(** ** The storage adapter *)

Module StorageSpec.
Import JS Runtime Browser StorageManager StorageTerms JSFacts.

Lemma access_enabled st : enabled st = true -> access st = (Normal tt, st).
Proof. unfold access. now intros ->. Qed.

Lemma access_blocked st :
  enabled st = false -> access st = (Throw (DOMException "SecurityError"), st).
Proof. unfold access. now intros ->. Qed.

Lemma run_getItem k st :
  enabled st = true -> getItem k st = (Normal (items st !! k), st).
Proof.
  intros He. unfold getItem. step ltac:(now apply access_enabled). reflexivity.
Qed.

Lemma run_removeItem k st :
  enabled st = true -> removeItem k st = (Normal tt, with_items (delete k) st).
Proof.
  intros He. unfold removeItem. step ltac:(now apply access_enabled). reflexivity.
Qed.

Lemma setItem_blocked k v st :
  enabled st = false -> setItem k v st = (Throw (DOMException "SecurityError"), st).
Proof.
  intros He. unfold setItem. now step_throw ltac:(now apply access_blocked).
Qed.

(** A write either stores the pair or throws and stores nothing. *)
Lemma setItem_cases k v st :
  (setItem k v st = (Normal tt, with_items (insert k v) st) /\ enabled st = true)
  \/ (exists e, setItem k v st = (Throw e, st)).
Proof.
  unfold setItem. destruct (enabled st) eqn:He.
  - step ltac:(now apply access_enabled). step ltac:(reflexivity).
    destruct (quota st <? used (<[k:=v]> (items st)))%N; [right | left]; eauto.
  - right. eexists. now apply setItem_blocked.
Qed.

(** C3.  Once the probe has recorded the store unavailable, every
    operation returns its failure value, raises nothing, and leaves the
    store alone: [save], [remove] and [clear] return [false], [load]
    returns its default (the one supplied, or [null] when none is), and
    [getStorageInfo] returns [{available: false}]. *)
Theorem unavailable_fails_soft `{JSON} this key data defaultValue st :
  isAvailable this = false ->
  save this key data st = (Normal false, st)
  /\ load this key defaultValue st = (Normal (or_null defaultValue), st)
  /\ (defaultValue <> JUndefined ->
      load this key defaultValue st = (Normal defaultValue, st))
  /\ remove this key st = (Normal false, st)
  /\ clear this st = (Normal false, st)
  /\ getStorageInfo this st = (Normal (JObj [("available", JBool false)]), st).
Proof.
  intros Hu. unfold save, load, remove, clear, getStorageInfo. rewrite Hu.
  repeat split. intros Hd. now destruct defaultValue.
Qed.

(** The probe records a store that refuses access as unavailable, and
    never throws. *)
Lemma constructor_blocked k st :
  enabled st = false ->
  constructor k st = (Normal (mkStorageManager (default "taskManagementApp" k) false), st).
Proof.
  intros He. unfold constructor, _checkStorageAvailability.
  step ltac:(erewrite run_try_throw;
             [reflexivity
             | cbv zeta; now step_throw ltac:(now apply setItem_blocked)]).
  reflexivity.
Qed.

(** C10.  With the adapter available and the store accessible, [remove]
    returns [true] and the store is the old one without the effective key;
    when the key was not there, the store is unchanged and [remove] still
    returns [true]. *)
Theorem remove_reports_true this key st :
  isAvailable this = true -> enabled st = true ->
  remove this key st = (Normal true, with_items (delete (fullKey this key)) st)
  /\ (items st !! fullKey this key = None -> remove this key st = (Normal true, st)).
Proof.
  intros Ha He.
  assert (remove this key st = (Normal true, with_items (delete (fullKey this key)) st))
    as Hrun.
  { unfold remove. rewrite Ha. cbn [negb].
    erewrite run_try_normal; [reflexivity|]. cbv zeta.
    step ltac:(now apply run_removeItem). reflexivity. }
  split; [exact Hrun|].
  intros Habsent. rewrite Hrun. f_equal.
  destruct st as [m q e]. unfold with_items. cbn in *. f_equal.
  now apply delete_id.
Qed.

(** [load] never throws, and never writes. *)
Lemma load_total `{JSON} this key d st : exists v, load this key d st = (Normal v, st).
Proof.
  unfold load. destruct (isAvailable this); cbn [negb]; [|eexists; reflexivity].
  cbv [try_catch bind getItem access get ret lift].
  destruct (enabled st); [|eexists; reflexivity].
  destruct (items st !! fullKey this key) as [text|]; [|eexists; reflexivity].
  destruct (JSON_parse text); eexists; reflexivity.
Qed.

Lemma or_null_supplied d : d <> JUndefined -> or_null d = d.
Proof. now destruct d. Qed.

(** C4, as the code has it.  (1) When [save] returns [true] for a
    JSON-serializable value, a [load] of the same key returns that value.
    (2) A [load] of a key the store does not hold returns the default
    supplied.  (3) A [load] of a key whose text does not parse returns the
    default supplied.  (4) [load] never throws. *)
Theorem save_then_load `{JSON} this key :
  (forall v st st' d,
     json_serializable v ->
     save this key v st = (Normal true, st') ->
     load this key d st' = (Normal v, st'))
  /\ (forall st d,
        items st !! fullKey this key = None -> d <> JUndefined ->
        load this key d st = (Normal d, st))
  /\ (forall st d text e,
        items st !! fullKey this key = Some text -> JSON_parse text = Throw e ->
        d <> JUndefined ->
        load this key d st = (Normal d, st))
  /\ (forall st d, exists v, load this key d st = (Normal v, st)).
Proof.
  repeat split.
  - intros v st st' d (text & Hstr & Hparse) Hsave.
    unfold save in Hsave. destruct (isAvailable this) eqn:Ha; [|discriminate Hsave].
    cbn [negb] in Hsave. unfold try_catch in Hsave. cbv zeta in Hsave.
    step_in Hsave ltac:(rewrite run_lift, Hstr; reflexivity). cbn [default] in Hsave.
    destruct (setItem_cases (fullKey this key) text st) as [[Hset He] | (e & Hset)].
    + step_in Hsave ltac:(exact Hset). injection Hsave as <-.
      unfold load. rewrite Ha. cbn [negb].
      erewrite run_try_normal; [reflexivity|]. cbv zeta.
      step ltac:(now apply run_getItem).
      cbn [items with_items]. rewrite lookup_insert_eq. now rewrite run_lift, Hparse.
    + step_throw_in Hsave ltac:(exact Hset). discriminate Hsave.
  - intros st d Habsent Hd. unfold load. rewrite (or_null_supplied d Hd).
    destruct (isAvailable this); cbn [negb]; [|reflexivity].
    cbv [try_catch bind getItem access get ret lift].
    destruct (enabled st); [|reflexivity]. now rewrite Habsent.
  - intros st d text e Htext Hparse Hd. unfold load. rewrite (or_null_supplied d Hd).
    destruct (isAvailable this); cbn [negb]; [|reflexivity].
    cbv [try_catch bind getItem access get ret lift].
    destruct (enabled st); [|reflexivity]. now rewrite Htext, Hparse.
  - intros st d. apply load_total.
Qed.

(** *** Nothing is raised *)

Lemma try_catch_total {S A} (body : M S A) (handler : exn -> M S A) s :
  (forall e s0, exists a, handler e s0 = (Normal a, s0)) ->
  exists a s', try_catch body handler s = (Normal a, s').
Proof.
  intros Hh. unfold try_catch. destruct (body s) as [[a|e] s'].
  - now exists a, s'.
  - destruct (Hh e s') as (a & ->). now exists a, s'.
Qed.

(** No operation of the adapter raises, whatever the store does: each
    returns a value, on every store and for every argument. *)
Theorem adapter_never_throws `{JSON} this key data defaultValue st :
  (exists b st', save this key data st = (Normal b, st'))
  /\ (exists v st', load this key defaultValue st = (Normal v, st'))
  /\ (exists b st', remove this key st = (Normal b, st'))
  /\ (exists b st', clear this st = (Normal b, st'))
  /\ (exists info st', getStorageInfo this st = (Normal info, st'))
  /\ (forall k, exists adapter st', constructor k st = (Normal adapter, st')).
Proof.
  unfold save, load, remove, clear, getStorageInfo.
  destruct (isAvailable this); cbn [negb];
    repeat split;
    try (apply try_catch_total; intros e s0; eexists; reflexivity);
    try (do 2 eexists; reflexivity).
  all: intros k; unfold constructor, _checkStorageAvailability;
    destruct (try_catch_total
                (let testKey := "__storage_test__" in
                 setItem testKey "test" ;; removeItem testKey ;; ret true)%js
                (fun _ => ret false) st) as (a & s' & Hprobe);
    [intros e s0; eexists; reflexivity|];
    exists (mkStorageManager (default "taskManagementApp" k) a), s';
    now step ltac:(exact Hprobe).
Qed.

(** *** [clear] *)

Lemma run_key i st :
  enabled st = true -> key i st = (Normal ((map_to_list (items st)).*1 !! i), st).
Proof.
  intros He. unfold key. step ltac:(now apply access_enabled). reflexivity.
Qed.

Lemma run_length st : enabled st = true -> length st = (Normal (size (items st)), st).
Proof.
  intros He. unfold length. step ltac:(now apply access_enabled). reflexivity.
Qed.

(** The first loop gathers the collected keys, in the store's order. *)
Lemma run_collect this st (He : enabled st = true) :
  forall post pre acc,
    (map_to_list (items st)).*1 = (pre ++ post)%list ->
    for_each (collect this) (seq (List.length pre) (List.length post)) acc st
    = (Normal (acc ++ List.filter (collected this) post)%list, st).
Proof.
  induction post as [|k post IH]; intros pre acc Hkeys.
  - cbn. now rewrite app_nil_r.
  - cbn [List.length seq for_each].
    assert (collect this acc (List.length pre) st
            = (Normal (if collected this k then acc ++ [k] else acc)%list, st)) as Hk.
    { unfold collect. step ltac:(now apply run_key).
      rewrite Hkeys, lookup_app_r, Nat.sub_diag by lia. cbn [lookup list_lookup].
      fold (collected this k). now destruct (collected this k). }
    step ltac:(exact Hk).
    replace (S (List.length pre)) with (List.length (pre ++ [k])%list)
      by (rewrite length_app; cbn; lia).
    rewrite IH by (now rewrite <- app_assoc).
    cbn [List.filter]. destruct (collected this k); [|reflexivity].
    now rewrite <- app_assoc.
Qed.

(** The second loop deletes them. *)
Lemma run_remove_all st (He : enabled st = true) :
  forall l m,
    for_each (fun _ k => removeItem k) l tt (mkStorage m (quota st) (enabled st))
    = (Normal tt, mkStorage (fold_left (fun m k => delete k m) l m) (quota st) (enabled st)).
Proof.
  induction l as [|k l IH]; intros m; [reflexivity|].
  cbn [for_each fold_left].
  step ltac:(now apply run_removeItem). apply IH.
Qed.

Lemma lookup_delete_all (l : list string) :
  forall (m : gmap string string) k,
    fold_left (fun m k => delete k m) l m !! k = if decide (k ∈ l) then None else m !! k.
Proof.
  induction l as [|k' l IH]; intros m k; cbn [fold_left].
  - rewrite decide_False; [reflexivity | apply not_elem_of_nil].
  - rewrite IH. destruct (decide (k ∈ l)) as [Hin | Hout].
    + rewrite decide_True; [reflexivity | now right].
    + destruct (decide (k = k')) as [-> | Hne].
      * rewrite lookup_delete_eq, decide_True; [reflexivity | now left].
      * rewrite lookup_delete_ne by congruence.
        rewrite decide_False; [reflexivity|]. rewrite elem_of_cons. tauto.
Qed.

(** On a store that refuses access [clear] returns [false] and changes
    nothing. *)
Lemma clear_blocked this st :
  isAvailable this = true -> enabled st = false -> clear this st = (Normal false, st).
Proof.
  intros Ha He. unfold clear. rewrite Ha. cbn [negb].
  erewrite run_try_throw; [reflexivity|].
  step_throw ltac:(unfold for_each_index, length;
                   step_throw ltac:(step_throw ltac:(now apply access_blocked);
                                    reflexivity); reflexivity).
  reflexivity.
Qed.

(** What [clear] does to an accessible store: it returns [true], and the
    store then holds no key that is not empty and starts with the prefix,
    and every other key with its old value. *)
Theorem clear_deletes_collected this st :
  isAvailable this = true -> enabled st = true ->
  exists m,
    clear this st = (Normal true, mkStorage m (quota st) (enabled st))
    /\ forall k, m !! k = if collected this k then None else items st !! k.
Proof.
  intros Ha He. unfold clear. rewrite Ha. cbn [negb].
  exists (fold_left (fun m k => delete k m)
            (List.filter (collected this) (map_to_list (items st)).*1) (items st)).
  split.
  - erewrite run_try_normal; [reflexivity|].
    step ltac:(unfold for_each_index; step ltac:(now apply run_length);
               pose proof (run_collect this st He (map_to_list (items st)).*1 [] [] eq_refl)
                 as Hrun;
               rewrite length_fmap, length_map_to_list in Hrun; exact Hrun).
    cbn [app]. destruct st as [m q e].
    step ltac:(apply (run_remove_all (mkStorage m q e) He)). reflexivity.
  - intros k. rewrite lookup_delete_all.
    destruct (collected this k) eqn:Hk.
    + destruct (items st !! k) as [v|] eqn:Hv.
      * rewrite decide_True; [reflexivity|].
        apply list_elem_of_In, filter_In. split; [|assumption].
        apply list_elem_of_In, list_elem_of_fmap. exists (k, v).
        split; [reflexivity | now apply elem_of_map_to_list].
      * now destruct (decide _).
    + rewrite decide_False; [reflexivity|].
      intros Hin%list_elem_of_In%filter_In. destruct Hin as [_ Hin]. congruence.
Qed.

End StorageSpec.

(** ** Further properties of the Task entity *)

Module TaskLaws.
Import JS Date Runtime Task TaskTerms Footprint JSFacts DateFacts TaskSpec.

(** *** What the constructor accepts *)

(** The constructor returns a Task exactly when the title is a string with
    a character that is not white space, the description is a string or a
    falsy value, and the priority is omitted or one of low, medium, high.
    The Task is then [constructed]: title and description trimmed, the
    priority defaulted to medium, [completed] false, and the world has
    given three readings of the clock and one random suffix. *)
Theorem constructor_accepts_exactly title description priority w :
  (valid_title title /\ valid_description description /\ valid_priority priority
   <-> exists t w', constructor title description priority w = (Normal t, w'))
  /\ (forall t w',
        constructor title description priority w = (Normal t, w') ->
        t = constructed title description priority w /\ w' = after_constructor w).
Proof.
  split; [split|].
  - intros (Ht & Hd & Hp). eexists _, _. now apply constructor_valid.
  - intros (t & w' & Hnew). exact (constructor_inv _ _ _ _ _ _ Hnew).
  - intros t w' Hnew.
    destruct (constructor_inv _ _ _ _ _ _ Hnew) as (Ht & Hd & Hp).
    rewrite constructor_valid in Hnew by assumption. now injection Hnew as <- <-.
Qed.

(** *** Identifiers *)

Lemma digits_no_underscore d : occurs "_" (NilEmpty.string_of_uint d) = false.
Proof. induction d; cbn; [reflexivity | assumption ..]. Qed.

Lemma numeral_no_underscore n : occurs "_" (Number_toString n) = false.
Proof.
  unfold Number_toString, NilZero.string_of_int, NilZero.string_of_uint.
  destruct (Z.to_int n) as [d|d]; destruct d; cbn; try reflexivity;
    apply digits_no_underscore.
Qed.

Lemma Number_toString_inj n m : Number_toString n = Number_toString m -> n = m.
Proof.
  unfold Number_toString. intros Heq. apply DecimalZ.to_int_inj.
  assert (forall z, NilZero.int_of_string (NilZero.string_of_int (Z.to_int z))
                    = Some (Z.to_int z)) as Hread.
  { intros z. apply NilZero.isi; destruct z; cbn; try discriminate;
      intros [= Hnil]; now apply Unsigned.to_uint_nonnil in Hnil. }
  pose proof (Hread n) as Hn. rewrite Heq, Hread in Hn. now injection Hn.
Qed.

(** Two strings free of a separator, each followed by the separator, can
    only be read apart in one way. *)
Lemma split_at_separator c a : forall b s1 s2,
  occurs c a = false -> occurs c b = false ->
  a +:+ String c s1 = b +:+ String c s2 -> a = b /\ s1 = s2.
Proof.
  induction a as [|x a IH]; intros [|y b] s1 s2 Ha Hb Heq; cbn in *.
  - now injection Heq.
  - injection Heq as -> _. now rewrite Ascii.eqb_refl in Hb.
  - injection Heq as -> _. now rewrite Ascii.eqb_refl in Ha.
  - injection Heq as -> Heq.
    apply orb_false_iff in Ha as [_ Ha]. apply orb_false_iff in Hb as [_ Hb].
    destruct (IH _ _ _ Ha Hb Heq) as [-> ->]. now split.
Qed.

Lemma generateId_inj w1 w2 :
  fst (_generateId w1) = fst (_generateId w2)
  <-> clock w1 (ticks w1) = clock w2 (ticks w2)
      /\ entropy w1 (draws w1) = entropy w2 (draws w2).
Proof.
  rewrite !run_generateId. cbn [fst]. split.
  - intros [= Heq].
    apply (split_at_separator "_" _ _ _ _ (numeral_no_underscore _)
             (numeral_no_underscore _)) in Heq as [Hn Hs].
    split; [now apply Number_toString_inj | assumption].
  - now intros [-> ->].
Qed.

(** Two Tasks from the constructor have the same id exactly when
    [Date.now()] read the same and the random source gave the same suffix
    at the two calls: the numeral of an id ends at its first underscore
    after the [task_], so an id can be read apart in one way only.  Two
    Tasks built one after the other therefore differ in id as soon as the
    clock has moved between the two calls, or the two suffixes differ. *)
Theorem ids_collide_exactly :
  (forall title1 description1 priority1 title2 description2 priority2 w1 w2 t1 t2 w1' w2',
     constructor title1 description1 priority1 w1 = (Normal t1, w1') ->
     constructor title2 description2 priority2 w2 = (Normal t2, w2') ->
     (_id t1 = _id t2
      <-> clock w1 (ticks w1) = clock w2 (ticks w2)
          /\ entropy w1 (draws w1) = entropy w2 (draws w2)))
  /\ (forall title1 description1 priority1 title2 description2 priority2 w t1 t2 w' w'',
        constructor title1 description1 priority1 w = (Normal t1, w') ->
        constructor title2 description2 priority2 w' = (Normal t2, w'') ->
        clock w (ticks w) <> clock w (3 + ticks w)%nat
        \/ entropy w (draws w) <> entropy w (S (draws w)) ->
        _id t1 <> _id t2).
Proof.
  assert (forall title1 description1 priority1 title2 description2 priority2 a b,
             _id (constructed title1 description1 priority1 a)
             = _id (constructed title2 description2 priority2 b)
             <-> clock a (ticks a) = clock b (ticks b)
                 /\ entropy a (draws a) = entropy b (draws b)) as Hid.
  { intros ? ? ? ? ? ? a b. rewrite <- generateId_inj. rewrite !run_generateId. cbn.
    split; [intros [= Heq] | intros [= Heq]];
      [exact (f_equal (fun s => Normal ("task_" +:+ s)) Heq)
      | exact (f_equal (fun s => JStr ("task_" +:+ s)) Heq)]. }
  split.
  - intros title1 description1 priority1 title2 description2 priority2 w1 w2 t1 t2 w1' w2'
      Hnew1 Hnew2.
    destruct (constructor_inv _ _ _ _ _ _ Hnew1) as (Ht1 & Hd1 & Hp1).
    destruct (constructor_inv _ _ _ _ _ _ Hnew2) as (Ht2 & Hd2 & Hp2).
    rewrite constructor_valid in Hnew1, Hnew2 by assumption.
    injection Hnew1 as <- <-. injection Hnew2 as <- <-. apply Hid.
  - intros title1 description1 priority1 title2 description2 priority2 w t1 t2 w' w''
      Hnew1 Hnew2 Hdiffer Hsame.
    destruct (constructor_inv _ _ _ _ _ _ Hnew1) as (Ht1 & Hd1 & Hp1).
    destruct (constructor_inv _ _ _ _ _ _ Hnew2) as (Ht2 & Hd2 & Hp2).
    rewrite constructor_valid in Hnew1, Hnew2 by assumption.
    injection Hnew1 as <- <-. injection Hnew2 as <- <-.
    apply Hid in Hsame. cbn in Hsame. tauto.
Qed.

(** *** Reachable states *)

Lemma run_world o t w :
  let w' := snd (snd (run o (t, w))) in
  clock w' = clock w /\ entropy w' = entropy w /\ draws w' = draws w
  /\ (ticks w <= ticks w' <= S (ticks w))%nat.
Proof.
  destruct (run_cases o t w) as [(e & ->) | (t' & -> & _)]; cbn; repeat split; lia.
Qed.

Lemma run_well_formed o t w :
  clock_valid w -> well_formed t -> well_formed (fst (snd (run o (t, w)))).
Proof.
  intros Hclock [Htitle Hdesc Hprio Hc Hu].
  pose proof (run_valid_fields o t w (conj (proj1 Htitle) (conj (proj2 Htitle)
                                               (conj Hdesc Hprio)))) as (H1 & H2 & H3 & H4).
  destruct (run_cases o t w) as [(e & Hrun) | (t' & Hrun & Hcreated)];
    rewrite Hrun in *; cbn [fst snd] in *.
  - now split.
  - split; cbn; try assumption; [now split | now rewrite Hcreated |].
    eexists. split; [reflexivity | apply Hclock].
Qed.

Lemma run_all_well_formed ops : forall t w,
  clock_valid w -> well_formed t -> well_formed (fst (run_all ops (t, w))).
Proof.
  induction ops as [|o ops IH]; intros t w Hclock Hwf; [assumption|].
  cbn [run_all]. pose proof (run_well_formed o t w Hclock Hwf) as Hwf'.
  destruct (run_world o t w) as (Hsame & _).
  destruct (run o (t, w)) as [r [t' w']]. cbn [fst snd] in *.
  apply IH; [|assumption]. intros i. rewrite Hsame. apply Hclock.
Qed.

Lemma well_formed_round_trip `{Engine} t :
  well_formed t ->
  exists record,
    toJSON t = Normal record
    /\ forall w1, fromJSON record w1 = (Normal t, after_constructor w1).
Proof.
  intros Hwf.
  destruct (wf_createdAt _ Hwf) as (c & Hc & _).
  destruct (wf_updatedAt _ Hwf) as (u & Hu & _).
  exists (record_of t c u). split; [now apply toJSON_dates|].
  intros w1. now apply fromJSON_record_of.
Qed.

Lemma fromJSON_well_formed `{Engine} data w t w' :
  fromJSON data w = (Normal t, w') -> dated t -> well_formed t.
Proof.
  intros Hfrom [Hc Hu].
  destruct (fromJSON_inv _ _ _ _ Hfrom)
    as (ti & de & pr & t0 & i & co & cr & up & _ & _ & _ & Hnew & _ & _ & _ & _ & _ & _ & Ht).
  destruct (constructor_inv _ _ _ _ _ _ Hnew) as (Hti & Hde & Hpr).
  rewrite constructor_valid in Hnew by assumption. injection Hnew as <- _.
  destruct (constructed_valid_fields ti de pr w Hti Hde Hpr) as (H1 & H2 & H3 & H4).
  split; try assumption; rewrite Ht; cbn; try assumption. now split.
Qed.

(** Serialization round-trips in every state a Task reaches, not only
    fresh from the constructor.  After any run of mutators, accepted or
    rejected, on a Task that the constructor built, or on one that
    [fromJSON] returned with two valid timestamps, [toJSON] returns a
    record and [fromJSON] of that record is the Task again, field for
    field. *)
Theorem round_trip_in_every_state `{Engine} :
  (forall title description priority w t w' ops,
     clock_valid w ->
     constructor title description priority w = (Normal t, w') ->
     let t' := fst (run_all ops (t, w')) in
     exists record,
       toJSON t' = Normal record /\ forall w1, fst (fromJSON record w1) = Normal t')
  /\ (forall data w t w' ops,
        fromJSON data w = (Normal t, w') -> dated t -> clock_valid w' ->
        let t' := fst (run_all ops (t, w')) in
        exists record,
          toJSON t' = Normal record /\ forall w1, fst (fromJSON record w1) = Normal t').
Proof.
  assert (forall t w ops,
             well_formed t -> clock_valid w ->
             exists record,
               toJSON (fst (run_all ops (t, w))) = Normal record
               /\ forall w1, fst (fromJSON record w1) = Normal (fst (run_all ops (t, w))))
    as Hstate.
  { intros t w ops Hwf Hclock.
    destruct (well_formed_round_trip _ (run_all_well_formed ops t w Hclock Hwf))
      as (record & Hto & Hfrom).
    exists record. split; [assumption|]. intros w1. now rewrite Hfrom. }
  split.
  - intros title description priority w t w' ops Hclock Hnew. cbv zeta.
    destruct (constructor_inv _ _ _ _ _ _ Hnew) as (Ht & Hd & Hp).
    rewrite constructor_valid in Hnew by assumption. injection Hnew as <- <-.
    apply Hstate; [now apply constructed_well_formed | exact Hclock].
  - intros data w t w' ops Hfrom Hdated Hclock. cbv zeta.
    apply Hstate; [exact (fromJSON_well_formed _ _ _ _ Hfrom Hdated) | exact Hclock].
Qed.

(** *** What the mutators leave alone *)

Lemma run_frame o t w :
  let t' := fst (snd (run o (t, w))) in
  _id t' = _id t /\ _createdAt t' = _createdAt t
  /\ (target o <> Title -> _title t' = _title t)
  /\ (target o <> Description -> _description t' = _description t)
  /\ (target o <> Priority -> _priority t' = _priority t)
  /\ (target o <> Completed -> _completed t' = _completed t).
Proof.
  destruct o as [| |v|v|v]; cbn [run target].
  - repeat split; congruence.
  - repeat split; congruence.
  - unfold updateTitle. destruct (blank "newTitle" v) as [[|]|e] eqn:Hb.
    + step ltac:(reflexivity). repeat split.
    + destruct (blank_false_inv _ _ Hb) as (s & -> & Hs).
      step ltac:(reflexivity). repeat split; congruence.
    + step_throw ltac:(reflexivity). repeat split.
  - unfold updateDescription. destruct (truthy v) eqn:Hv.
    + destruct v; try discriminate Hv;
        try (step_throw ltac:(reflexivity); repeat split).
      step ltac:(reflexivity). repeat split; congruence.
    + step ltac:(reflexivity). repeat split; congruence.
  - unfold updatePriority. destruct (_validatePriority v) as [p|e] eqn:Hp.
    + step ltac:(reflexivity). repeat split; congruence.
    + step_throw ltac:(reflexivity). repeat split.
Qed.

Lemma spares_cons f o ops :
  spares f (o :: ops) = true <-> target o <> f /\ spares f ops = true.
Proof.
  unfold spares. cbn [forallb]. rewrite andb_true_iff, negb_true_iff.
  split; intros [Ho Hops]; (split; [|assumption]).
  - intros <-. now destruct (target o).
  - destruct (target o), f; try reflexivity; congruence.
Qed.

(** What the mutators leave alone.  No run of mutators changes [id] or
    [createdAt].  The title, the description, the priority and [completed]
    are changed only by a run that holds their own mutator.  The random
    source is never drawn from, and the clock is read at most once for
    each operation. *)
Theorem mutators_frame ops : forall t w,
  let t' := fst (run_all ops (t, w)) in
  let w' := snd (run_all ops (t, w)) in
  _id t' = _id t /\ _createdAt t' = _createdAt t
  /\ (spares Title ops = true -> _title t' = _title t)
  /\ (spares Description ops = true -> _description t' = _description t)
  /\ (spares Priority ops = true -> _priority t' = _priority t)
  /\ (spares Completed ops = true -> _completed t' = _completed t)
  /\ clock w' = clock w /\ entropy w' = entropy w /\ draws w' = draws w
  /\ (ticks w <= ticks w' <= ticks w + List.length ops)%nat.
Proof.
  induction ops as [|o ops IH]; intros t w; cbv zeta.
  - cbn. repeat split; lia.
  - cbn [run_all List.length].
    pose proof (run_frame o t w) as (Hid & Hcr & Hti & Hde & Hpr & Hco).
    pose proof (run_world o t w) as (Hcl & Hen & Hdr & Htk).
    destruct (run o (t, w)) as [r [t1 w1]]. cbn [fst snd] in *.
    destruct (IH t1 w1) as (Iid & Icr & Iti & Ide & Ipr & Ico & Icl & Ien & Idr & Itk).
    rewrite !spares_cons.
    repeat split; try congruence; try lia.
    + intros [Ho Hops]. rewrite Iti by assumption. now apply Hti.
    + intros [Ho Hops]. rewrite Ide by assumption. now apply Hde.
    + intros [Ho Hops]. rewrite Ipr by assumption. now apply Hpr.
    + intros [Ho Hops]. rewrite Ico by assumption. now apply Hco.
Qed.

(** [completed] after a run of mutators is decided by the last
    [markComplete] or [markIncomplete] in it, whatever ran before, between
    or after: [markIncomplete] undoes [markComplete], and the other
    mutators, accepted or rejected, do not touch the flag.  A run with
    neither leaves [completed] as it was. *)
Theorem completed_is_last_mark ops : forall t w,
  _completed (fst (run_all ops (t, w)))
  = match last_mark ops with
    | Some b => JBool b
    | None => _completed t
    end.
Proof.
  induction ops as [|o ops IH]; intros t w; [reflexivity|].
  cbn [run_all last_mark].
  pose proof (run_frame o t w) as (_ & _ & _ & _ & _ & Hco).
  destruct (run o (t, w)) as [r [t1 w1]] eqn:Hrun. cbn [fst snd] in *.
  rewrite IH. destruct (last_mark ops) as [b|]; [reflexivity|].
  destruct o; try (apply Hco; discriminate);
    cbn in Hrun; injection Hrun as _ <- _; reflexivity.
Qed.

(** *** Arguments of the wrong type *)

(** [updateDescription] on every argument.  A string sets the description
    to the string trimmed.  A falsy value ([undefined], [null], [false], 0,
    the empty string) sets it to the empty string.  Both refresh
    [updatedAt].  Any other value (a Number other than 0, [true], an array,
    an object) raises a TypeError, [trim] not being a function of it, and
    leaves the Task and the clock as they were. *)
Theorem updateDescription_cases :
  (forall s t w,
     updateDescription (JStr s) (t, w)
     = (Normal tt, (set_updatedAt (DateAt (clock w (ticks w))) (set_description (trim s) t),
                    tick w)))
  /\ (forall v t w,
        truthy v = false ->
        updateDescription v (t, w)
        = (Normal tt, (set_updatedAt (DateAt (clock w (ticks w))) (set_description "" t),
                       tick w)))
  /\ (forall v t w,
        truthy_non_string v = true ->
        updateDescription v (t, w)
        = (Throw (TypeError "newDescription.trim is not a function"), (t, w))).
Proof.
  repeat split.
  - intros s t w. unfold updateDescription.
    destruct (truthy (JStr s)) eqn:Hs; step ltac:(reflexivity); [reflexivity|].
    now rewrite (trim_falsy _ Hs).
  - intros v t w Hv. unfold updateDescription. rewrite Hv.
    now step ltac:(reflexivity).
  - intros v t w Hv. unfold updateDescription.
    apply andb_true_iff in Hv as [Hv Hs]. rewrite Hv.
    destruct v; try discriminate; now step_throw ltac:(reflexivity).
Qed.

(** A title that is truthy and not a string does not meet the
    ValidationError: the constructor and [updateTitle] raise a TypeError at
    [trim], before anything is read or written.  A description of that kind
    makes the constructor raise a TypeError after the id has been
    generated: by then the clock has been read once and the random source
    drawn from once. *)
Theorem non_string_arguments v w :
  truthy_non_string v = true ->
  (forall description priority,
     constructor v description priority w
     = (Throw (TypeError "title.trim is not a function"), w))
  /\ (forall title priority,
        valid_title title ->
        constructor title v priority w
        = (Throw (TypeError "description.trim is not a function"),
           mkWorld (clock w) (S (ticks w)) (entropy w) (S (draws w))))
  /\ (forall t,
        updateTitle v (t, w)
        = (Throw (TypeError "newTitle.trim is not a function"), (t, w))).
Proof.
  intros Hv. apply andb_true_iff in Hv as [Hv Hs].
  repeat split.
  - intros description priority. unfold constructor.
    step_throw ltac:(unfold blank; rewrite run_lift, Hv;
                     destruct v; try discriminate; reflexivity).
    reflexivity.
  - intros title priority Ht. unfold constructor.
    step ltac:(rewrite run_lift, (blank_valid_title _ _ Ht); reflexivity).
    step ltac:(apply run_generateId).
    destruct Ht as (s & -> & Hne).
    step ltac:(reflexivity).
    rewrite Hv.
    step_throw ltac:(destruct v; try discriminate; reflexivity).
    reflexivity.
  - intros t. unfold updateTitle.
    step_throw ltac:(unfold blank; rewrite run_lift, Hv;
                     destruct v; try discriminate; reflexivity).
    reflexivity.
Qed.

(** *** What [fromJSON] makes of a record *)

(** What [fromJSON] makes of the data it accepts.  The data is an object
    whose title is a string.  The Task has the record's [id] and
    [completed] as they are ([undefined] when the record has none), the
    title trimmed, the description trimmed (empty when it is not a string),
    the record's priority (medium when it has none), and the two timestamps
    as [new Date] converts them.  The id the constructor generated is
    discarded; the clock has still been read three times and the random
    source drawn from once. *)
Theorem fromJSON_result `{Engine} data w t w' :
  fromJSON data w = (Normal t, w') ->
  exists props s,
    data = JObj props
    /\ lookup_prop "title" props = JStr s
    /\ _id t = lookup_prop "id" props
    /\ _title t = trim s
    /\ _description t
       = match lookup_prop "description" props with JStr d => trim d | _ => "" end
    /\ _priority t
       = match lookup_prop "priority" props with
         | JUndefined => JStr "medium"
         | _ => lookup_prop "priority" props
         end
    /\ _completed t = lookup_prop "completed" props
    /\ new_Date_from (lookup_prop "createdAt" props) = Normal (_createdAt t)
    /\ new_Date_from (lookup_prop "updatedAt" props) = Normal (_updatedAt t)
    /\ w' = after_constructor w.
Proof.
  intros Hfrom.
  destruct (fromJSON_inv _ _ _ _ Hfrom)
    as (ti & de & pr & t0 & i & co & cr & up
        & Hti & Hde & Hpr & Hnew & Hi & Hco & Hcr & Hup & Hc & Hu & Ht).
  destruct (constructor_inv _ _ _ _ _ _ Hnew) as (Hvt & Hvd & Hvp).
  rewrite constructor_valid in Hnew by assumption. injection Hnew as <- <-.
  destruct Hvt as (s & -> & Hs).
  destruct data as [| | | | |elems|props]; try discriminate Hti.
  cbn [Get] in *.
  injection Hti as Hti. injection Hde as <-. injection Hpr as <-.
  injection Hi as <-. injection Hco as <-. injection Hcr as <-. injection Hup as <-.
  exists props, s.
  repeat split; try assumption; try reflexivity; rewrite Ht; reflexivity.
Qed.

(** [fromJSON] accepts a record whose [createdAt] or [updatedAt] converts
    to an invalid Date (as a missing timestamp does), and the Task it
    returns cannot be serialized: [toJSON] raises a RangeError. *)
Theorem invalid_timestamp_blocks_toJSON `{Engine} props w c u :
  valid_title (lookup_prop "title" props) ->
  valid_description (lookup_prop "description" props) ->
  valid_priority (lookup_prop "priority" props) ->
  new_Date_from (lookup_prop "createdAt" props) = Normal c ->
  new_Date_from (lookup_prop "updatedAt" props) = Normal u ->
  c = InvalidDate \/ u = InvalidDate ->
  exists t,
    fromJSON (JObj props) w = (Normal t, after_constructor w)
    /\ toJSON t = Throw (RangeError "Invalid time value").
Proof.
  intros Ht Hd Hp Hc Hu Hinvalid.
  pose proof (fromJSON_constructor (JObj props) _ _ _ w eq_refl eq_refl eq_refl) as Hspec.
  rewrite constructor_valid in Hspec by assumption.
  destruct Hspec as (i & co & cr & up & _ & _ & [= <-] & [= <-] & ->).
  rewrite Hc, Hu. eexists. split; [reflexivity|].
  unfold toJSON. cbn.
  destruct Hinvalid as [-> | ->]; [reflexivity|]. now destruct c.
Qed.

(** *** [updatedAt] over time *)

Lemma run_settled o t w :
  clock_monotone w -> settled (t, w) ->
  settled (snd (run o (t, w)))
  /\ clock_monotone (snd (snd (run o (t, w))))
  /\ exists u u', _updatedAt t = DateAt u
                  /\ _updatedAt (fst (snd (run o (t, w)))) = DateAt u' /\ u <= u'.
Proof.
  intros Hmono (u & Hu & Hlater). cbn [fst snd] in *.
  destruct (run_cases o t w) as [(e & ->) | (t' & -> & _)]; cbn [fst snd].
  - repeat split; [now exists u | assumption | exists u, u; repeat split; [assumption..|lia]].
  - repeat split.
    + exists (clock w (ticks w)). split; [reflexivity|].
      intros j Hj. apply Hmono. cbn in Hj. lia.
    + exact Hmono.
    + exists u, (clock w (ticks w)). repeat split; [assumption|]. now apply Hlater.
Qed.

Lemma run_all_settled ops : forall t w,
  clock_monotone w -> settled (t, w) ->
  settled (run_all ops (t, w))
  /\ clock_monotone (snd (run_all ops (t, w)))
  /\ exists u u', _updatedAt t = DateAt u
                  /\ _updatedAt (fst (run_all ops (t, w))) = DateAt u' /\ u <= u'.
Proof.
  induction ops as [|o ops IH]; intros t w Hmono Hset.
  - repeat split; try assumption.
    destruct Hset as (u & Hu & _). exists u, u. repeat split; [assumption..|lia].
  - cbn [run_all].
    destruct (run_settled o t w Hmono Hset) as (Hset' & Hmono' & u & u1 & Hu & Hu1 & Hle).
    destruct (run o (t, w)) as [r [t1 w1]]. cbn [fst snd] in *.
    destruct (IH t1 w1 Hmono' Hset') as (Hset'' & Hmono'' & u1' & u2 & Hu1' & Hu2 & Hle').
    rewrite Hu1 in Hu1'. injection Hu1' as <-.
    repeat split; try assumption. exists u, u2. repeat split; [assumption..|lia].
Qed.

Lemma run_all_app ops more st : run_all (ops ++ more) st = run_all more (run_all ops st).
Proof. revert st. induction ops as [|o ops IH]; intros st; [reflexivity|]. apply IH. Qed.

(** Under a clock that does not run backwards, [updatedAt] of a Task from
    the constructor never moves back: whatever mutators have run, running
    more of them, accepted or rejected, leaves an [updatedAt] that is the
    same or later. *)
Theorem updatedAt_never_goes_back title description priority w t w' ops more :
  clock_monotone w ->
  constructor title description priority w = (Normal t, w') ->
  exists u u',
    _updatedAt (fst (run_all ops (t, w'))) = DateAt u
    /\ _updatedAt (fst (run_all (ops ++ more) (t, w'))) = DateAt u'
    /\ u <= u'.
Proof.
  intros Hmono Hnew.
  destruct (constructor_inv _ _ _ _ _ _ Hnew) as (Ht & Hd & Hp).
  rewrite constructor_valid in Hnew by assumption. injection Hnew as <- <-.
  assert (settled (constructed title description priority w, after_constructor w)) as Hset.
  { eexists. split; [reflexivity|]. intros j Hj. apply Hmono. cbn in *. lia. }
  destruct (run_all_settled ops _ (after_constructor w) Hmono Hset) as (Hset' & Hmono' & _).
  rewrite run_all_app.
  destruct (run_all ops _) as [t1 w1]. cbn [fst snd] in *.
  destruct (run_all_settled more t1 w1 Hmono' Hset') as (_ & _ & Hle). exact Hle.
Qed.

(** *** The getters and the mutators *)

(** What the getters of a Task return, the update methods take back: on a
    Task whose validated fields are valid, [updateTitle(task.title)],
    [updateDescription(task.description)] and
    [updatePriority(task.priority)] are accepted and change nothing but
    [updatedAt]. *)
Theorem getters_feed_mutators t w :
  valid_fields t ->
  updateTitle (title t) (t, w)
  = (Normal tt, (set_updatedAt (DateAt (clock w (ticks w))) t, tick w))
  /\ updateDescription (description t) (t, w)
     = (Normal tt, (set_updatedAt (DateAt (clock w (ticks w))) t, tick w))
  /\ updatePriority (priority t) (t, w)
     = (Normal tt, (set_updatedAt (DateAt (clock w (ticks w))) t, tick w)).
Proof.
  intros (Htrim & Hne & Hdesc & Hprio).
  assert (set_title (_title t) t = t /\ set_description (_description t) t = t
          /\ set_priority (_priority t) t = t) as (Hti & Hde & Hpr)
    by now destruct t.
  repeat split.
  - unfold updateTitle, title.
    step ltac:(rewrite run_lift, (blank_valid_title _ (JStr (_title t)));
               [reflexivity | exists (_title t); split; [reflexivity | now rewrite Htrim]]).
    step ltac:(reflexivity). cbn [call_trim]. rewrite Htrim.
    step ltac:(reflexivity). step ltac:(reflexivity). cbn. now rewrite Hti.
  - unfold updateDescription, description.
    destruct (truthy (JStr (_description t))) eqn:Hd.
    + step ltac:(reflexivity). cbn [call_trim]. rewrite Hdesc.
      step ltac:(reflexivity). step ltac:(reflexivity). cbn. now rewrite Hde.
    + step ltac:(reflexivity).
      rewrite truthy_JStr in Hd. apply negb_false_iff, eqb_empty in Hd.
      rewrite <- Hd.
      step ltac:(reflexivity). step ltac:(reflexivity). cbn. now rewrite Hde.
  - unfold updatePriority, priority.
    step ltac:(rewrite run_lift, validatePriority_valid by assumption; reflexivity).
    step ltac:(reflexivity). step ltac:(reflexivity). cbn. now rewrite Hpr.
Qed.

End TaskLaws.

(** ** Further properties of the storage adapter *)

Module StorageLaws.
Import JS Runtime Browser StorageManager StorageTerms Footprint JSFacts StorageSpec.
Local Open Scope js_scope.

(** *** Strings and keys *)

Lemma append_assoc (a b c : string) : (a +:+ b) +:+ c = a +:+ (b +:+ c).
Proof. induction a as [|x a IH]; [reflexivity|]. rewrite !append_String. now rewrite IH. Qed.

Lemma append_inv_head (p a b : string) : p +:+ a = p +:+ b -> a = b.
Proof.
  induction p as [|x p IH]; [now intros|].
  rewrite !append_String. intros [= Heq]. now apply IH.
Qed.

Lemma fullKey_inj this key key' : fullKey this key = fullKey this key' -> key = key'.
Proof. unfold fullKey. intros Heq%append_inv_head. now injection Heq. Qed.

Lemma startsWith_append s p r : startsWith s p = true -> startsWith (s +:+ r) p = true.
Proof.
  unfold startsWith. revert s. induction p as [|x p IH]; intros [|y s]; cbn; try easy.
  - now destruct r.
  - intros Hp. rewrite append_String. cbn. destruct (ascii_dec x y); [now apply IH | easy].
Qed.

Lemma fullKey_collected this other key :
  startsWith (storageKey other) (storageKey this) = true ->
  collected this (fullKey other key) = true.
Proof.
  intros Hp. unfold collected, fullKey. rewrite startsWith_append by assumption.
  now destruct (storageKey other).
Qed.

(** *** The store's own operations *)

Lemma run_setItem k v st :
  enabled st = true -> (quota st <? used (<[k:=v]> (items st)))%N = false ->
  setItem k v st = (Normal tt, with_items (insert k v) st).
Proof.
  intros He Hq. unfold setItem.
  step ltac:(now apply access_enabled). step ltac:(reflexivity). now rewrite Hq.
Qed.

Lemma setItem_full k v st :
  enabled st = true -> (quota st <? used (<[k:=v]> (items st)))%N = true ->
  setItem k v st = (Throw (DOMException "QuotaExceededError"), st).
Proof.
  intros He Hq. unfold setItem.
  step ltac:(now apply access_enabled). step ltac:(reflexivity). now rewrite Hq.
Qed.

Lemma removeItem_blocked k st :
  enabled st = false -> removeItem k st = (Throw (DOMException "SecurityError"), st).
Proof. intros He. unfold removeItem. now step_throw ltac:(now apply access_blocked). Qed.

(** *** The probe *)

(** The availability probe.  [new StorageManager(storageKey)] records the
    store as available exactly when the store takes the item
    [__storage_test__] with the value [test]: access is permitted and the
    quota has room for it.  The probe leaves every other key as it was.
    When it succeeds the key [__storage_test__] is absent afterwards, so an
    item that was stored under it is lost; when it fails the store is
    unchanged. *)
Theorem probe_effect storageKey st :
  let available := probe_fits st in
  let st' := snd (constructor storageKey st) in
  constructor storageKey st
  = (Normal (mkStorageManager (default "taskManagementApp" storageKey) available),
     if available then with_items (delete testKey) st else st)
  /\ (forall k, k <> testKey -> items st' !! k = items st !! k)
  /\ (available = true -> items st' !! testKey = None).
Proof.
  cbv zeta.
  assert (constructor storageKey st
          = (Normal (mkStorageManager (default "taskManagementApp" storageKey) (probe_fits st)),
             if probe_fits st then with_items (delete testKey) st else st)) as Hrun.
  { unfold probe_fits. destruct (enabled st) eqn:He; [|now apply constructor_blocked].
    cbn [andb]. rewrite N.leb_antisym.
    unfold constructor, _checkStorageAvailability.
    destruct (quota st <? used (<[testKey:="test"]> (items st)))%N eqn:Hq; cbn [negb].
    - step ltac:(erewrite run_try_throw;
                 [reflexivity
                 | cbv zeta; now step_throw ltac:(now apply setItem_full)]).
      reflexivity.
    - step ltac:(erewrite run_try_normal;
                 [reflexivity
                 | cbv zeta; step ltac:(now apply run_setItem);
                   step ltac:(now apply run_removeItem); reflexivity]).
      destruct st as [m q e]. unfold with_items. cbn. now rewrite delete_insert_eq. }
  rewrite Hrun. cbn [snd]. split; [reflexivity|].
  destruct (probe_fits st); cbn [items with_items]; split; try easy.
  - intros k Hk. now apply lookup_delete_ne.
  - intros _. apply lookup_delete_eq.
Qed.

(** *** [save], [load] and [remove] *)

Lemma save_cases `{JSON} this key data st :
  (exists text, JSON_stringify data = Normal text
     /\ isAvailable this = true /\ enabled st = true
     /\ save this key data st
        = (Normal true,
           with_items (insert (fullKey this key) (default "undefined" text)) st))
  \/ save this key data st = (Normal false, st).
Proof.
  unfold save. destruct (isAvailable this); cbn [negb]; [|now right].
  unfold try_catch. cbv zeta.
  destruct (JSON_stringify data) as [text|e] eqn:Hs.
  - step ltac:(apply run_lift).
    destruct (setItem_cases (fullKey this key) (default "undefined" text) st)
      as [[Hset He] | (e & Hset)].
    + left. exists text. step ltac:(exact Hset). now repeat split.
    + right. now step_throw ltac:(exact Hset).
  - right. now step_throw ltac:(apply run_lift).
Qed.

Lemma remove_cases this key st :
  (isAvailable this = true /\ enabled st = true
   /\ remove this key st = (Normal true, with_items (delete (fullKey this key)) st))
  \/ remove this key st = (Normal false, st).
Proof.
  unfold remove. destruct (isAvailable this); cbn [negb]; [|now right].
  unfold try_catch. cbv zeta. destruct (enabled st) eqn:He.
  - left. step ltac:(now apply run_removeItem). now repeat split.
  - right. now step_throw ltac:(now apply removeItem_blocked).
Qed.

(** What [load] returns, in terms of what the store holds under the
    effective key. *)
Lemma run_load `{JSON} this key d st :
  load this key d st
  = (Normal (if isAvailable this && enabled st
             then match items st !! fullKey this key with
                  | Some text => match JSON_parse text with
                                 | Normal v => v
                                 | Throw _ => or_null d
                                 end
                  | None => or_null d
                  end
             else or_null d), st).
Proof.
  unfold load. destruct (isAvailable this); cbn [negb andb]; [|reflexivity].
  cbv [try_catch bind getItem access get ret lift].
  destruct (enabled st); [|reflexivity].
  destruct (items st !! fullKey this key) as [text|]; [|reflexivity].
  now destruct (JSON_parse text).
Qed.

(** [save] is all or nothing.  Either it returns [true] and the store is
    the old one with the text of the value under the effective key, or it
    returns [false] and the store is exactly what it was, whatever was
    saved under the key before included. *)
Theorem save_all_or_nothing `{JSON} this key data st :
  (exists text,
     JSON_stringify data = Normal text
     /\ save this key data st
        = (Normal true,
           with_items (insert (fullKey this key) (default "undefined" text)) st))
  \/ save this key data st = (Normal false, st).
Proof.
  destruct (save_cases this key data st) as [(text & Hs & _ & _ & Hrun) | Hrun];
    [left; now exists text | now right].
Qed.

(** Within one adapter the keys do not interfere: a [save] or a [remove]
    of one key, successful or not, does not change what [load] returns for
    a different key. *)
Theorem other_keys_untouched `{JSON} this key key' data d st :
  key <> key' ->
  fst (load this key' d (snd (save this key data st))) = fst (load this key' d st)
  /\ fst (load this key' d (snd (remove this key st))) = fst (load this key' d st).
Proof.
  intros Hne.
  assert (fullKey this key <> fullKey this key') as Hfull
    by (intros Heq; now apply Hne, (fullKey_inj this)).
  split.
  - destruct (save_cases this key data st) as [(text & _ & _ & _ & ->) | ->];
      [|reflexivity].
    rewrite !run_load. cbn [fst snd items enabled with_items].
    now rewrite lookup_insert_ne.
  - destruct (remove_cases this key st) as [(_ & _ & ->) | ->]; [|reflexivity].
    rewrite !run_load. cbn [fst snd items enabled with_items].
    now rewrite lookup_delete_ne.
Qed.

(** After [remove(key)], whatever it returned, [load(key, d)] returns the
    default: nothing is left under the key that could be read. *)
Theorem remove_then_load `{JSON} this key d st :
  load this key d (snd (remove this key st))
  = (Normal (or_null d), snd (remove this key st)).
Proof.
  rewrite run_load.
  destruct (remove_cases this key st) as [(Ha & He & ->) | Hrun].
  - cbn [snd items enabled with_items]. rewrite lookup_delete_eq.
    now destruct (isAvailable this && enabled st).
  - rewrite Hrun. cbn [snd]. unfold remove in Hrun.
    destruct (isAvailable this); cbn [negb andb] in *; [|reflexivity].
    destruct (enabled st) eqn:He; [|reflexivity].
    unfold try_catch in Hrun. cbv zeta in Hrun.
    step_in Hrun ltac:(now apply run_removeItem). discriminate Hrun.
Qed.

(** A value saved under one effective key is what any adapter that
    addresses that key loads. *)
Lemma saved_loads `{JSON} this other key key' v d st st' :
  json_serializable v ->
  save this key v st = (Normal true, st') ->
  isAvailable other = true -> fullKey other key' = fullKey this key ->
  load other key' d st' = (Normal v, st').
Proof.
  intros (text & Hs & Hparse) Hsave Ha Hkey.
  destruct (save_cases this key v st) as [(text' & Hs' & _ & He & Hrun) | Hrun];
    rewrite Hrun in Hsave; [|discriminate Hsave].
  injection Hsave as <-. rewrite Hs in Hs'. injection Hs' as <-.
  rewrite run_load, Ha, Hkey. cbn [items enabled with_items andb].
  rewrite He, lookup_insert_eq. cbn. now rewrite Hparse.
Qed.

(** The effective key is the prefix, an underscore and the key, and
    nothing keeps an underscore out of either part: the prefix does not by
    itself separate two adapters.  An adapter with the prefix [p_q] loads
    under [key] what the adapter with the prefix [p] saved under
    [q_key]. *)
Theorem prefix_is_not_a_namespace `{JSON} this other q key v d st st' :
  storageKey other = storageKey this +:+ "_" +:+ q ->
  isAvailable other = true ->
  json_serializable v ->
  save this (q +:+ "_" +:+ key) v st = (Normal true, st') ->
  load other key d st' = (Normal v, st').
Proof.
  intros Hprefix Ha Hv Hsave.
  apply (saved_loads this other (q +:+ "_" +:+ key) key v d st st'); try assumption.
  unfold fullKey. rewrite Hprefix. now rewrite !append_assoc.
Qed.

(** Values without a JSON text.  When [JSON.stringify] throws, [save]
    returns [false] and writes nothing.  When it returns [undefined] (as it
    does for the value [undefined]) and the write is accepted, [save]
    returns [true] having stored the string [undefined]; as that string is
    not JSON, a [load] of the key then returns the default. *)
Theorem save_without_json_text `{JSON} this key data st :
  (forall e, JSON_stringify data = Throw e -> save this key data st = (Normal false, st))
  /\ (forall st',
        JSON_stringify data = Normal None ->
        save this key data st = (Normal true, st') ->
        items st' !! fullKey this key = Some "undefined"
        /\ forall d e,
             JSON_parse "undefined" = Throw e ->
             load this key d st' = (Normal (or_null d), st')).
Proof.
  split.
  - intros e Hs.
    destruct (save_cases this key data st) as [(text & Hs' & _) | Hrun];
      [congruence | assumption].
  - intros st' Hs Hsave.
    destruct (save_cases this key data st) as [(text & Hs' & Ha & He & Hrun) | Hrun];
      rewrite Hrun in Hsave; [|discriminate Hsave].
    injection Hsave as <-. rewrite Hs in Hs'. injection Hs' as <-.
    cbn [items with_items default]. rewrite lookup_insert_eq. split; [reflexivity|].
    intros d e Hparse. rewrite run_load. cbn [items enabled with_items].
    rewrite lookup_insert_eq, Hparse. now destruct (isAvailable this && enabled st).
Qed.

(** *** A store that refuses access after the probe *)

Lemma length_blocked st :
  enabled st = false -> length st = (Throw (DOMException "SecurityError"), st).
Proof. intros He. unfold length. now step_throw ltac:(now apply access_blocked). Qed.

(** A store that refuses access after the probe has passed.  The adapter
    still holds [isAvailable = true], and every operation fails soft in its
    [catch]: [save], [remove] and [clear] return [false], [load] returns the
    default, [getStorageInfo] returns [available: false] with the error's
    message, and the store is left alone. *)
Theorem blocked_store_fails_soft `{JSON} this key data d st :
  isAvailable this = true -> enabled st = false ->
  save this key data st = (Normal false, st)
  /\ load this key d st = (Normal (or_null d), st)
  /\ remove this key st = (Normal false, st)
  /\ clear this st = (Normal false, st)
  /\ exists text,
       getStorageInfo this st
       = (Normal (JObj [("available", JBool false); ("error", JStr text)]), st).
Proof.
  intros Ha He. repeat split.
  - destruct (save_cases this key data st) as [(text & _ & _ & He' & _) | Hrun];
      [congruence | assumption].
  - rewrite run_load, He. now rewrite andb_false_r.
  - destruct (remove_cases this key st) as [(_ & He' & _) | Hrun];
      [congruence | assumption].
  - now apply clear_blocked.
  - eexists. unfold getStorageInfo. rewrite Ha. cbn [negb].
    erewrite run_try_throw; [reflexivity|].
    step_throw ltac:(unfold for_each_index;
                     step_throw ltac:(now apply length_blocked); reflexivity).
    reflexivity.
Qed.

(** *** [clear] *)

Lemma clear_effect this st :
  isAvailable this = true -> enabled st = true ->
  clear this st
  = (Normal true,
     mkStorage (fold_left (fun m k => delete k m)
                  (List.filter (collected this) (map_to_list (items st)).*1) (items st))
       (quota st) (enabled st)).
Proof.
  intros Ha He. unfold clear. rewrite Ha. cbn [negb].
  erewrite run_try_normal; [reflexivity|].
  step ltac:(unfold for_each_index; step ltac:(now apply run_length);
             pose proof (run_collect this st He (map_to_list (items st)).*1 [] [] eq_refl)
               as Hrun;
             rewrite length_fmap, length_map_to_list in Hrun; exact Hrun).
  cbn [app]. destruct st as [m q e].
  step ltac:(apply (run_remove_all (mkStorage m q e) He)). reflexivity.
Qed.

Lemma cleared_lookup this (m : gmap string string) k :
  fold_left (fun m k => delete k m) (List.filter (collected this) (map_to_list m).*1) m !! k
  = if collected this k then None else m !! k.
Proof.
  rewrite lookup_delete_all. destruct (collected this k) eqn:Hk.
  - destruct (m !! k) as [v|] eqn:Hv.
    + rewrite decide_True; [reflexivity|].
      apply list_elem_of_In, filter_In. split; [|assumption].
      apply list_elem_of_In, list_elem_of_fmap. exists (k, v).
      split; [reflexivity | now apply elem_of_map_to_list].
    + now destruct (decide _).
  - rewrite decide_False; [reflexivity|].
    intros Hin%list_elem_of_In%filter_In. destruct Hin as [_ Hin]. congruence.
Qed.

(** After [clear()] on an available adapter, [load] returns the default
    for every key of that adapter, and for every key of any adapter whose
    prefix starts with the first one's: [clear] matches the prefix without
    the underscore that follows it in an effective key. *)
Theorem clear_then_load `{JSON} this other key d st :
  isAvailable this = true ->
  startsWith (storageKey other) (storageKey this) = true ->
  load other key d (snd (clear this st)) = (Normal (or_null d), snd (clear this st)).
Proof.
  intros Ha Hprefix. rewrite run_load. destruct (enabled st) eqn:He.
  - rewrite clear_effect by assumption. cbn [snd items enabled].
    rewrite cleared_lookup, (fullKey_collected this other key Hprefix).
    now destruct (isAvailable other && enabled st).
  - rewrite clear_blocked by assumption. cbn [snd]. rewrite He.
    now rewrite andb_false_r.
Qed.

(** *** [getStorageInfo] *)

Lemma run_sizes this st (He : enabled st = true) :
  forall post pre totalSize appSize,
    map_to_list (items st) = (pre ++ post)%list ->
    for_each
      (fun '(totalSize, appSize) i =>
         k <- key i ;;
         match k with
         | None => throw (TypeError "Cannot read properties of null")
         | Some k =>
             value <- getItem k ;;
             match value with
             | None => throw (TypeError "Cannot read properties of null")
             | Some value =>
                 let itemSize := (String.length k + String.length value)%nat in
                 ret ((totalSize + itemSize)%nat,
                      if startsWith k (storageKey this)
                      then (appSize + itemSize)%nat else appSize)
             end
         end)
      (seq (List.length pre) (List.length post)) (totalSize, appSize) st
    = (Normal ((totalSize + sum_list_with item_size post)%nat,
               (appSize
                + sum_list_with item_size
                    (List.filter (fun kv => startsWith (fst kv) (storageKey this)) post))%nat),
       st).
Proof.
  induction post as [|[k v] post IH]; intros pre totalSize appSize Hlist.
  - cbn. now rewrite !Nat.add_0_r.
  - cbn [List.length seq for_each].
    assert (items st !! k = Some v) as Hv.
    { apply elem_of_map_to_list. rewrite Hlist. apply elem_of_app. right. now left. }
    step ltac:(step ltac:(now apply run_key);
               rewrite Hlist, fmap_app, lookup_app_r, length_fmap, Nat.sub_diag
                 by (rewrite length_fmap; lia);
               cbn [fmap list_fmap lookup list_lookup fst];
               step ltac:(now apply run_getItem);
               rewrite Hv; reflexivity).
    replace (S (List.length pre)) with (List.length (pre ++ [(k, v)])%list)
      by (rewrite length_app; cbn; lia).
    rewrite IH by (now rewrite <- app_assoc).
    cbn [List.filter sum_list_with fst].
    destruct (startsWith k (storageKey this)); cbn [sum_list_with];
      f_equal; f_equal; f_equal; unfold item_size; cbn [fst snd]; lia.
Qed.

Lemma used_total m : used m = N.of_nat (total_size m).
Proof.
  unfold used, total_size. rewrite map_fold_foldr.
  induction (map_to_list m) as [|[k v] l IH]; [reflexivity|].
  cbn [foldr sum_list_with uncurry]. rewrite IH. unfold item_size. cbn [fst snd]. lia.
Qed.

Lemma filter_sum_le {A} (f : A -> nat) (P : A -> bool) l :
  (sum_list_with f (List.filter P l) <= sum_list_with f l)%nat.
Proof.
  induction l as [|x l IH]; [reflexivity|].
  cbn [List.filter sum_list_with]. destruct (P x); cbn [sum_list_with]; lia.
Qed.

Lemma run_getStorageInfo this st :
  isAvailable this = true -> enabled st = true ->
  getStorageInfo this st
  = (Normal (report (total_size (items st)) (app_size this (items st)) (size (items st))),
     st).
Proof.
  intros Ha He. unfold getStorageInfo. rewrite Ha. cbn [negb].
  erewrite run_try_normal; [reflexivity|].
  step ltac:(unfold for_each_index; step ltac:(now apply run_length);
             pose proof (run_sizes this st He (map_to_list (items st)) [] 0%nat 0%nat eq_refl)
               as Hrun;
             rewrite length_map_to_list in Hrun; exact Hrun).
  step ltac:(now apply run_length). reflexivity.
Qed.

(** What [getStorageInfo] reports of a store that is available and
    accessible: [totalSize] is the number of characters of all keys and
    values, [appSize] that of the items whose key starts with the prefix,
    [itemCount] the number of items, and the store is not changed.
    [appSize] never exceeds [totalSize], and [totalSize] is the quantity the
    store's quota bounds. *)
Theorem getStorageInfo_report this st :
  isAvailable this = true -> enabled st = true ->
  getStorageInfo this st
  = (Normal (report (total_size (items st)) (app_size this (items st)) (size (items st))),
     st)
  /\ (app_size this (items st) <= total_size (items st))%nat
  /\ used (items st) = N.of_nat (total_size (items st)).
Proof.
  intros Ha He. split; [now apply run_getStorageInfo|].
  split; [apply filter_sum_le | apply used_total].
Qed.

(** *** [clear], then [getStorageInfo] *)

Lemma collected_prefixed this k :
  storageKey this <> "" -> collected this k = startsWith k (storageKey this).
Proof.
  intros Hne. unfold collected, startsWith.
  destruct k; [|reflexivity]. now destruct (storageKey this).
Qed.

Lemma sum_filter_split {A} (f : A -> nat) (P : A -> bool) l :
  (sum_list_with f l
   = sum_list_with f (List.filter P l)
     + sum_list_with f (List.filter (fun x => negb (P x)) l))%nat.
Proof.
  induction l as [|x l IH]; [reflexivity|].
  cbn [List.filter sum_list_with]. destruct (P x); cbn [negb sum_list_with]; lia.
Qed.

Lemma sum_filter_none {A} (f : A -> nat) (P : A -> bool) l :
  (forall x, x ∈ l -> P x = false) -> sum_list_with f (List.filter P l) = 0%nat.
Proof.
  induction l as [|x l IH]; intros Hall; [reflexivity|].
  cbn [List.filter]. rewrite (Hall x) by now left.
  apply IH. intros y Hy. apply Hall. now right.
Qed.

Lemma NoDup_bool_filter {A} (P : A -> bool) l : NoDup l -> NoDup (List.filter P l).
Proof.
  induction 1 as [|x l Hx Hl IH]; cbn [List.filter]; [constructor|].
  destruct (P x); [|assumption]. constructor; [|assumption].
  rewrite list_elem_of_In, filter_In, <- list_elem_of_In. tauto.
Qed.

(** The pairs left by [clear], up to their order. *)
Lemma cleared_list this (m m' : gmap string string) :
  (forall k, m' !! k = if collected this k then None else m !! k) ->
  map_to_list m' ≡ₚ List.filter (fun kv => negb (collected this (fst kv))) (map_to_list m).
Proof.
  intros Hm'. apply NoDup_Permutation.
  - apply NoDup_map_to_list.
  - apply NoDup_bool_filter, NoDup_map_to_list.
  - intros [k v]. rewrite elem_of_map_to_list, Hm'.
    rewrite list_elem_of_In, filter_In, <- list_elem_of_In, elem_of_map_to_list.
    cbn [fst]. destruct (collected this k); cbn [negb]; intuition congruence.
Qed.

(** [clear], then [getStorageInfo], for an adapter whose prefix is not
    empty: the report shows [appSize] 0, and [totalSize] has gone down by
    exactly what [appSize] was before. *)
Theorem clear_frees_app_size this st :
  isAvailable this = true -> enabled st = true -> storageKey this <> "" ->
  let st' := snd (clear this st) in
  getStorageInfo this st'
  = (Normal (report (total_size (items st')) 0 (size (items st'))), st')
  /\ (total_size (items st') + app_size this (items st) = total_size (items st))%nat.
Proof.
  intros Ha He Hne. cbv zeta. rewrite clear_effect by assumption. cbn [snd].
  set (m' := fold_left _ _ _).
  assert (forall k, m' !! k = if collected this k then None else items st !! k) as Hm'
    by (intros k; apply cleared_lookup).
  assert (app_size this m' = 0%nat) as Happ.
  { unfold app_size. apply sum_filter_none. intros [k v] Hkv%elem_of_map_to_list.
    cbn [fst]. rewrite Hm' in Hkv. rewrite <- collected_prefixed by assumption.
    now destruct (collected this k). }
  split.
  - rewrite run_getStorageInfo by assumption. cbn [items]. now rewrite Happ.
  - cbn [items]. unfold total_size, app_size.
    rewrite (cleared_list this (items st) m' Hm').
    rewrite (sum_filter_split item_size
               (fun kv => startsWith (fst kv) (storageKey this)) (map_to_list (items st))).
    rewrite Nat.add_comm. do 2 f_equal.
    apply filter_ext. intros [k v]. cbn [fst]. now rewrite collected_prefixed.
Qed.

(** *** When [save] succeeds *)

(** When [save] returns [true]: exactly when the adapter is available,
    the store permits access, the value has a text (or [undefined] for
    one), and the store with that text under the effective key is within
    the quota. *)
Theorem save_succeeds_exactly `{JSON} this key data st :
  fst (save this key data st) = Normal true
  <-> isAvailable this = true /\ enabled st = true
      /\ exists text,
           JSON_stringify data = Normal text
           /\ (used (<[fullKey this key := default "undefined" text]> (items st))
               <= quota st)%N.
Proof.
  split.
  - intros Hsave.
    destruct (save_cases this key data st) as [(text & Hs & Ha & He & Hrun) | Hrun];
      [|rewrite Hrun in Hsave; discriminate Hsave].
    repeat split; try assumption. exists text. split; [assumption|].
    destruct (quota st <? used (<[fullKey this key := default "undefined" text]> (items st)))%N
      eqn:Hq; [|now apply N.ltb_ge].
    unfold save in Hrun. rewrite Ha in Hrun. cbn [negb] in Hrun.
    unfold try_catch in Hrun. cbv zeta in Hrun.
    step_in Hrun ltac:(rewrite run_lift, Hs; reflexivity).
    step_throw_in Hrun ltac:(now apply setItem_full). discriminate Hrun.
  - intros (Ha & He & text & Hs & Hq).
    unfold save. rewrite Ha. cbn [negb]. unfold try_catch. cbv zeta.
    step ltac:(rewrite run_lift, Hs; reflexivity).
    step ltac:(apply run_setItem; [assumption | now apply N.ltb_ge]).
    reflexivity.
Qed.

End StorageLaws.

(** ** The development server *)

Module ServerLaws.
Import JS Server.

Lemma last_cons {A} (x : A) l d : List.last (x :: l) d = List.last l x.
Proof.
  revert x d. induction l as [|y l IH]; intros x d; [reflexivity|].
  change (List.last (x :: y :: l) d) with (List.last (y :: l) d).
  now rewrite (IH y d), (IH y x).
Qed.

(** The inner loop leaves the address of the last external IPv4 address
    of the interface, or what it was given. *)
Lemma inner_loop ifaces : forall ip,
  fold_left (fun localIP iface => if external_IPv4 iface then address iface else localIP)
    ifaces ip
  = List.last (List.map address (List.filter external_IPv4 ifaces)) ip.
Proof.
  induction ifaces as [|iface ifaces IH]; intros ip; [reflexivity|].
  cbn [fold_left List.filter]. rewrite IH.
  destruct (external_IPv4 iface); [|reflexivity].
  cbn [List.map]. now rewrite last_cons.
Qed.

Lemma entry_found pre name ifaces post :
  name ∉ keys pre -> entry (pre ++ (name, ifaces) :: post) name = ifaces.
Proof.
  intros Hfresh. unfold entry.
  induction pre as [|[k l] pre IH]; cbn [app List.find fst].
  - now rewrite String.eqb_refl.
  - cbn [keys List.map fst] in Hfresh. rewrite not_elem_of_cons in Hfresh.
    destruct Hfresh as [Hne Hfresh].
    apply String.eqb_neq in Hne. rewrite Hne. now apply IH.
Qed.

Lemma outer_loop post : forall pre ip,
  NoDup (keys (pre ++ post)) ->
  fold_left
    (fun localIP interfaceName =>
       fold_left (fun localIP iface => if external_IPv4 iface then address iface else localIP)
         (entry (pre ++ post) interfaceName) localIP)
    (keys post) ip
  = List.last (List.map address (List.filter external_IPv4 (List.concat (List.map snd post))))
      ip.
Proof.
  induction post as [|[name ifaces] post IH]; intros pre ip Hnodup; [reflexivity|].
  cbn [keys List.map fold_left fst snd List.concat].
  rewrite entry_found.
  - rewrite inner_loop.
    replace (pre ++ (name, ifaces) :: post)%list with ((pre ++ [(name, ifaces)]) ++ post)%list
      in * by now rewrite <- app_assoc.
    fold (keys post). rewrite IH by assumption.
    rewrite List.filter_app, List.map_app.
    generalize (List.map address (List.filter external_IPv4 ifaces)) as here.
    generalize (List.map address
                  (List.filter external_IPv4 (List.concat (List.map snd post)))) as later.
    intros later here. clear. revert ip.
    induction here as [|a here IH]; intros ip; [reflexivity|].
    rewrite <- app_comm_cons, !last_cons. apply IH.
  - unfold keys in Hnodup. rewrite List.map_app in Hnodup. cbn [List.map fst] in Hnodup.
    apply NoDup_app in Hnodup as (_ & Hdisjoint & _).
    intros Hin. apply (Hdisjoint name Hin). now left.
Qed.

(** The address the server announces to other devices.  When no two
    interfaces have the same name, [localIP] is the address of the last
    external IPv4 entry, in the order [os.networkInterfaces()] lists them,
    and [localhost] when there is none.  It is never the address of an
    internal or a non-IPv4 entry as such: when it is not the initial
    [localhost] it is the address of an entry that passed the test. *)
Theorem localIP_is_last_external networkInterfaces :
  NoDup (keys networkInterfaces) ->
  let external :=
    List.filter external_IPv4 (List.concat (List.map snd networkInterfaces)) in
  localIP networkInterfaces = List.last (List.map address external) "localhost"
  /\ (external = [] -> localIP networkInterfaces = "localhost")
  /\ (external <> [] ->
      exists interfaceName ifaces iface,
        (interfaceName, ifaces) ∈ networkInterfaces /\ iface ∈ ifaces
        /\ external_IPv4 iface = true
        /\ localIP networkInterfaces = address iface).
Proof.
  intros Hnodup. cbv zeta.
  assert (localIP networkInterfaces
          = List.last (List.map address
                         (List.filter external_IPv4
                            (List.concat (List.map snd networkInterfaces)))) "localhost")
    as Hlast by (apply (outer_loop networkInterfaces []); exact Hnodup).
  split; [exact Hlast|]. split.
  - intros Hnone. now rewrite Hlast, Hnone.
  - intros Hsome. rewrite Hlast.
    destruct (exists_last Hsome) as (front & iface & Heq). rewrite Heq.
    rewrite List.map_app. cbn [List.map]. rewrite List.last_last.
    assert (iface ∈ List.filter external_IPv4 (List.concat (List.map snd networkInterfaces)))
      as Hin by (rewrite Heq, elem_of_app; right; now left).
    apply list_elem_of_In, filter_In in Hin as [Hin Hext].
    apply in_concat in Hin as (ifaces & Hifaces & Hiface).
    apply in_map_iff in Hifaces as ([name l] & <- & Hentry).
    exists name, l, iface. repeat split; try assumption; now apply list_elem_of_In.
Qed.

End ServerLaws.

(** ** A Task through the store *)

Module PersistenceLaws.
Import JS Date Runtime Browser TaskTerms JSFacts TaskSpec TaskLaws StorageLaws.


End PersistenceLaws.

(** ** The properties at concrete inputs *)

Module Instances.
Import JS Date Runtime Task Browser StorageManager TaskTerms StorageTerms Reference.
Import TaskSpec StorageSpec.

Lemma world0_valid : clock_valid world0.
Proof.
  intros i. unfold world0, readings. cbn [clock].
  do 8 (destruct i as [|i]; [vm_compute; split; discriminate|]).
  destruct i; vm_compute; split; discriminate.
Qed.

Lemma world0_monotone : clock_monotone world0.
Proof.
  intros i j Hij. unfold world0, readings. cbn [clock].
  do 8 (destruct i as [|i];
        [do 8 (destruct j as [|j]; [cbn; lia|]); cbn; destruct j; lia|]).
  do 8 (destruct j as [|j]; [lia|]). cbn. destruct i, j; lia.
Qed.

Lemma sample_constructor :
  Task.constructor (JStr "  Buy milk ") (JStr " 2 litres, semi-skimmed ") JUndefined world0
  = (Normal sample_task, world1).
Proof. vm_compute. reflexivity. Qed.

(** C1 at the sample Task. *)
Lemma round_trip_of_sample_task :
  exists record,
    toJSON sample_task = Normal record /\
    forall w1, exists t',
      fst (@fromJSON strict_engine record w1) = Normal t'
      /\ t' = sample_task /\ toJSON t' = Normal record.
Proof.
  exact (@serialize_deserialize_round_trip strict_engine
           (JStr "  Buy milk ") (JStr " 2 litres, semi-skimmed ") JUndefined
           world0 sample_task world1 world0_valid sample_constructor).
Defined.



(** C5, as corrected: the sample Task after a run of operations, two of
    them rejected. *)
Lemma order_kept_by_sample_task :
  ordered (fst (run_all [MarkComplete; UpdateTitle (JStr ""); UpdatePriority (JStr "urgent");
                         UpdateDescription (JNum 5); UpdateTitle (JStr "Buy oat milk");
                         MarkIncomplete] (sample_task, world1))).
Proof.
  destruct (@updatedAt_not_before_createdAt strict_engine) as [Hnew _].
  exact (Hnew _ _ _ world0 sample_task world1 _ world0_monotone sample_constructor).
Defined.

(** C9, as corrected: a record whose [completed] is the string [yes]. *)
Lemma completed_copied_from_yes_props :
  exists t w',
    @fromJSON strict_engine (JObj yes_props) world0 = (Normal t, w')
    /\ _completed t = JStr "yes".
Proof.
  destruct (@fromJSON_copies_completed strict_engine) as [_ Hvalid].
  apply (Hvalid yes_props world0 (DateAt 1704067200000) (DateAt 1704067200000)).
  - exists "Buy milk". split; [reflexivity | vm_compute; discriminate].
  - left. reflexivity.
  - reflexivity.
  - vm_compute. reflexivity.
  - vm_compute. reflexivity.
Defined.

(** C3 at the adapter made on a store that refuses access: the spec's
    [save("x", 1)], [load("x", 42)] and [remove("x")]. *)
Lemma degraded_adapter_fails_soft :
  StorageManager.constructor None blocked = (Normal degraded, blocked)
  /\ @save json degraded "x" (JNum 1) blocked = (Normal false, blocked)
  /\ @load json degraded "x" (JNum 42) blocked = (Normal (JNum 42), blocked)
  /\ (JNum 42 <> JUndefined ->
      @load json degraded "x" (JNum 42) blocked = (Normal (JNum 42), blocked))
  /\ remove degraded "x" blocked = (Normal false, blocked)
  /\ clear degraded blocked = (Normal false, blocked)
  /\ getStorageInfo degraded blocked = (Normal (JObj [("available", JBool false)]), blocked).
Proof.
  split; [vm_compute; reflexivity|].
  apply (@unavailable_fails_soft json degraded "x" (JNum 1) (JNum 42) blocked).
  reflexivity.
Defined.

(** C10 at a key the store does not hold. *)
Lemma remove_of_absent_key :
  remove adapter "x" roomy
  = (Normal true, with_items (delete (fullKey adapter "x")) roomy)
  /\ (items roomy !! fullKey adapter "x" = None ->
      remove adapter "x" roomy = (Normal true, roomy)).
Proof.
  apply (remove_reports_true adapter "x" roomy); reflexivity.
Defined.

(** C4, as corrected: the spec's [save("tasks", [task.toJSON()])] then
    [load("tasks", [])], and [load("missing", "D")]. *)
Lemma saved_tasks_load_back :
  @load json adapter "tasks" (JArr [])
    (snd (@save json adapter "tasks" (JArr [sample_record]) roomy))
  = (Normal (JArr [sample_record]),
     snd (@save json adapter "tasks" (JArr [sample_record]) roomy))
  /\ @load json adapter "missing" (JStr "D") roomy = (Normal (JStr "D"), roomy).
Proof.
  split.
  - destruct (@save_then_load json adapter "tasks") as (Hload & _).
    apply (Hload (JArr [sample_record]) roomy).
    + eexists. split; [reflexivity | vm_compute; reflexivity].
    + vm_compute. reflexivity.
  - destruct (@save_then_load json adapter "missing") as (_ & Hmissing & _).
    apply (Hmissing roomy); [vm_compute; reflexivity | discriminate].
Defined.

(** [clear] on the shared store: the spec's "removes both namespaced keys
    but leaves a manually-set non-namespaced key untouched". *)
Lemma clear_of_shared_store :
  exists m,
    clear adapter shared = (Normal true, mkStorage m (quota shared) (enabled shared))
    /\ forall k, m !! k = if collected adapter k then None else items shared !! k.
Proof.
  apply (clear_deletes_collected adapter shared); reflexivity.
Defined.

(** The validated fields of the sample Task after accepted and rejected
    updates. *)
Lemma fields_of_sample_task_stay_valid :
  valid_fields
    (fst (run_all [UpdateTitle (JStr "  "); UpdatePriority (JStr "urgent");
                   UpdateDescription JNull; UpdateTitle (JStr " Buy oat milk ")]
            (sample_task, world1))).
Proof.
  destruct (@fields_stay_valid strict_engine) as (Hnew & _ & Hops).
  apply Hops. exact (Hnew _ _ _ _ _ _ sample_constructor).
Defined.

(** *** Where the specification and the code part *)

(** C2 fails as stated.  A priority outside the three does not always
    meet the ValidationError.  An object with an own property [toString]
    (as [JSON.parse] makes of the text [{"toString":1}]) has no conversion
    to a string, so building the message throws a TypeError, from the
    constructor and from [fromJSON] alike; and beside a description that is
    a Number the constructor throws a TypeError before it looks at the
    priority. *)
Lemma unprintable_priority_is_a_TypeError :
  includes validPriorities unprintable = false
  /\ fst (Task.constructor (JStr "Buy milk") JUndefined unprintable world0)
     = Throw (TypeError "Cannot convert object to primitive value")
  /\ fst (@fromJSON strict_engine unprintable_record world0)
     = Throw (TypeError "Cannot convert object to primitive value")
  /\ fst (Task.constructor (JStr "Buy milk") (JNum 5) (JStr "urgent") world0)
     = Throw (TypeError "description.trim is not a function")
  /\ (forall msg,
        fst (Task.constructor (JStr "Buy milk") JUndefined unprintable world0)
        <> Throw (ValidationError msg)).
Proof.
  repeat split; try (vm_compute; reflexivity).
  intros msg Heq. vm_compute in Heq. discriminate Heq.
Qed.

(** C6 fails as stated.  [updatePriority] on the same object leaves the
    Task as it was, but what it raises is the TypeError, not the
    ValidationError. *)
Lemma unprintable_priority_update_is_a_TypeError :
  includes validPriorities unprintable = false
  /\ updatePriority unprintable (sample_task, world1)
     = (Throw (TypeError "Cannot convert object to primitive value"), (sample_task, world1))
  /\ (forall msg,
        fst (updatePriority unprintable (sample_task, world1))
        <> Throw (ValidationError msg)).
Proof.
  repeat split; try (vm_compute; reflexivity).
  intros msg Heq. vm_compute in Heq. discriminate Heq.
Qed.

(** C4 fails as stated.  On a store with room for a hundred characters the
    probe succeeds, so the adapter is available; the write of a longer
    text is refused, [save] returns [false], and the [load] that follows
    returns the default, not the value. *)
Lemma refused_save_loads_default :
  fst (StorageManager.constructor None cramped) = Normal adapter
  /\ @json_serializable json (JArr [sample_record])
  /\ fst (@save json adapter "tasks" (JArr [sample_record]) cramped) = Normal false
  /\ fst (@load json adapter "tasks" (JArr [])
            (snd (@save json adapter "tasks" (JArr [sample_record]) cramped)))
     = Normal (JArr [])
  /\ JArr [] <> JArr [sample_record].
Proof.
  split; [vm_compute; reflexivity|].
  split; [eexists; split; [reflexivity | vm_compute; reflexivity]|].
  split; [vm_compute; reflexivity|].
  split; [vm_compute; reflexivity | discriminate].
Qed.

(** C5 fails as stated.  [fromJSON] accepts a record updated the day
    before it was created, and the Task it returns has [updatedAt] before
    [createdAt]. *)
Lemma backdated_record_out_of_order :
  exists t,
    fst (@fromJSON strict_engine backdated_record world0) = Normal t
    /\ _createdAt t = DateAt 1704153600000
    /\ _updatedAt t = DateAt 1704067200000
    /\ ~ ordered t.
Proof.
  eexists. split; [vm_compute; reflexivity|].
  split; [reflexivity|]. split; [reflexivity|].
  intros (c & u & Hc & Hu & Hcu). cbn in Hc, Hu.
  injection Hc as <-. injection Hu as <-. lia.
Qed.

(** C7 fails as stated.  A second [markComplete] reads the clock again:
    the Task after two calls is not the Task after one. *)
Lemma second_mark_moves_updatedAt :
  fst ((markComplete ;; markComplete)%js (sample_task, world1)) = Normal tt
  /\ _updatedAt (task_after (markComplete (sample_task, world1))) = DateAt 1718000000003
  /\ _updatedAt (task_after ((markComplete ;; markComplete)%js (sample_task, world1)))
     = DateAt 1718000000004
  /\ task_after ((markComplete ;; markComplete)%js (sample_task, world1))
     <> task_after (markComplete (sample_task, world1)).
Proof.
  split; [reflexivity|].
  split; [vm_compute; reflexivity|].
  split; [vm_compute; reflexivity|].
  intros Heq. apply (f_equal _updatedAt) in Heq. vm_compute in Heq. discriminate Heq.
Qed.

(** C9 fails as stated.  A record with a title and a priority that pass,
    and a Number for its description, is not deserialized at all:
    [description.trim] is not a function. *)
Lemma numeric_description_throws :
  Get numeric_description_record "title" = Normal (JStr "Buy milk")
  /\ Get numeric_description_record "priority" = Normal (JStr "low")
  /\ includes validPriorities (JStr "low") = true
  /\ Get numeric_description_record "description" = Normal (JNum 5)
  /\ Get numeric_description_record "completed" = Normal (JBool true)
  /\ fst (@fromJSON strict_engine numeric_description_record world0)
     = Throw (TypeError "description.trim is not a function").
Proof. repeat split; vm_compute; reflexivity. Qed.

(** C8 fails on the code.  With the empty prefix every key starts with the
    prefix, [clear] returns [true], and the empty key is still there: the
    test [key && ...] takes the empty string for a missing key. *)
Theorem clear_keeps_empty_key :
  startsWith "" (storageKey unprefixed) = true
  /\ items with_empty_key !! "" = Some "x"
  /\ fst (clear unprefixed with_empty_key) = Normal true
  /\ items (snd (clear unprefixed with_empty_key)) !! "" = Some "x"
  /\ items (snd (clear unprefixed with_empty_key)) !! "a" = None.
Proof. repeat split; vm_compute; reflexivity. Qed.

End Instances.

(** ** The further properties at concrete inputs *)

Module Examples.
Import JS Date Runtime Task Browser StorageManager TaskTerms StorageTerms Footprint Reference.
Import TaskSpec StorageSpec Instances TaskLaws StorageLaws ServerLaws PersistenceLaws.

(** The sample Task and the Task built next, three readings of the clock
    later, differ in id. *)
Lemma ids_of_two_sample_tasks :
  exists t2 w2,
    Task.constructor (JStr "Walk the dog") JUndefined (JStr "low") world1 = (Normal t2, w2)
    /\ _id sample_task <> _id t2.
Proof.
  eexists _, _. split; [vm_compute; reflexivity|].
  destruct ids_collide_exactly as [_ Hnext].
  apply (Hnext (JStr "  Buy milk ") (JStr " 2 litres, semi-skimmed ") JUndefined
           (JStr "Walk the dog") JUndefined (JStr "low") world0 _ _ world1 _
           sample_constructor eq_refl).
  left. vm_compute. discriminate.
Defined.

(** The sample Task after four updates, one of them rejected, still
    round-trips. *)
Lemma round_trip_of_updated_sample_task :
  let t' := fst (run_all [MarkComplete; UpdateTitle (JStr " Buy oat milk ");
                          UpdatePriority (JStr "urgent"); UpdateDescription JNull]
                   (sample_task, world1)) in
  exists record,
    toJSON t' = Normal record
    /\ forall w1, fst (@fromJSON strict_engine record w1) = Normal t'.
Proof.
  destruct (@round_trip_in_every_state strict_engine) as [Hnew _].
  exact (Hnew _ _ _ world0 sample_task world1 _ world0_valid sample_constructor).
Defined.

(** The Number 5 as a title and as a description. *)
Lemma number_for_a_title :
  (forall description priority,
     Task.constructor (JNum 5) description priority world0
     = (Throw (TypeError "title.trim is not a function"), world0))
  /\ (forall title priority,
        valid_title title ->
        Task.constructor title (JNum 5) priority world0
        = (Throw (TypeError "description.trim is not a function"),
           mkWorld (clock world0) (S (ticks world0)) (entropy world0) (S (draws world0))))
  /\ (forall t,
        updateTitle (JNum 5) (t, world0)
        = (Throw (TypeError "newTitle.trim is not a function"), (t, world0))).
Proof. apply (non_string_arguments (JNum 5) world0). reflexivity. Defined.

(** The Task [fromJSON] makes of a record with a title and two timestamps
    only: no id, no [completed], the priority medium. *)
Lemma sparse_record_result :
  exists props s,
    sparse_record = JObj props
    /\ lookup_prop "title" props = JStr s
    /\ _id (mkTask JUndefined "Call Ada" "" (JStr "medium") JUndefined
              (DateAt 1704067200000) (DateAt 1704153600000))
       = lookup_prop "id" props
    /\ _title (mkTask JUndefined "Call Ada" "" (JStr "medium") JUndefined
                 (DateAt 1704067200000) (DateAt 1704153600000))
       = trim s
    /\ _description (mkTask JUndefined "Call Ada" "" (JStr "medium") JUndefined
                       (DateAt 1704067200000) (DateAt 1704153600000))
       = match lookup_prop "description" props with JStr d => trim d | _ => "" end
    /\ _priority (mkTask JUndefined "Call Ada" "" (JStr "medium") JUndefined
                    (DateAt 1704067200000) (DateAt 1704153600000))
       = match lookup_prop "priority" props with
         | JUndefined => JStr "medium"
         | _ => lookup_prop "priority" props
         end
    /\ _completed (mkTask JUndefined "Call Ada" "" (JStr "medium") JUndefined
                     (DateAt 1704067200000) (DateAt 1704153600000))
       = lookup_prop "completed" props
    /\ @new_Date_from strict_engine (lookup_prop "createdAt" props)
       = Normal (_createdAt (mkTask JUndefined "Call Ada" "" (JStr "medium") JUndefined
                               (DateAt 1704067200000) (DateAt 1704153600000)))
    /\ @new_Date_from strict_engine (lookup_prop "updatedAt" props)
       = Normal (_updatedAt (mkTask JUndefined "Call Ada" "" (JStr "medium") JUndefined
                               (DateAt 1704067200000) (DateAt 1704153600000)))
    /\ world1 = after_constructor world0.
Proof.
  apply (@fromJSON_result strict_engine sparse_record world0
           (mkTask JUndefined "Call Ada" "" (JStr "medium") JUndefined
              (DateAt 1704067200000) (DateAt 1704153600000)) world1).
  vm_compute. reflexivity.
Defined.

(** A record with a title only is accepted, and its Task cannot be
    serialized. *)
Lemma undated_record_cannot_be_serialized :
  exists t,
    @fromJSON strict_engine (JObj undated_props) world0 = (Normal t, after_constructor world0)
    /\ toJSON t = Throw (RangeError "Invalid time value").
Proof.
  apply (@invalid_timestamp_blocks_toJSON strict_engine undated_props world0
           InvalidDate InvalidDate).
  - exists "Buy milk". split; [reflexivity | vm_compute; discriminate].
  - left. reflexivity.
  - left. reflexivity.
  - reflexivity.
  - reflexivity.
  - left. reflexivity.
Defined.

(** Saving or removing [tasks] leaves [settings] as it was. *)
Lemma settings_untouched_by_tasks :
  fst (@load json adapter "settings" JNull
         (snd (@save json adapter "tasks" (JArr [sample_record]) shared)))
  = fst (@load json adapter "settings" JNull shared)
  /\ fst (@load json adapter "settings" JNull (snd (remove adapter "tasks" shared)))
     = fst (@load json adapter "settings" JNull shared).
Proof.
  apply (@other_keys_untouched json adapter "tasks" "settings"). discriminate.
Defined.

(** What the adapter saves under [user_name], the adapter with the prefix
    [taskManagementApp_user] loads under [name]. *)
Lemma user_adapter_reads_adapter_key :
  @load json user_adapter "name" JNull
    (snd (@save json adapter "user_name" (JStr "Ada") roomy))
  = (Normal (JStr "Ada"), snd (@save json adapter "user_name" (JStr "Ada") roomy)).
Proof.
  apply (@prefix_is_not_a_namespace json adapter user_adapter "user" "name" (JStr "Ada")
           JNull roomy).
  - reflexivity.
  - reflexivity.
  - eexists. split; [reflexivity | vm_compute; reflexivity].
  - vm_compute. reflexivity.
Defined.

(** [save('draft', undefined)] with the reference [JSON]. *)
Lemma undefined_is_saved_but_not_loaded :
  (forall e, @JSON_stringify json JUndefined = Throw e ->
             @save json adapter "draft" JUndefined roomy = (Normal false, roomy))
  /\ (forall st',
        @JSON_stringify json JUndefined = Normal None ->
        @save json adapter "draft" JUndefined roomy = (Normal true, st') ->
        items st' !! fullKey adapter "draft" = Some "undefined"
        /\ forall d e,
             @JSON_parse json "undefined" = Throw e ->
             @load json adapter "draft" d st' = (Normal (or_null d), st')).
Proof. exact (@save_without_json_text json adapter "draft" JUndefined roomy). Defined.

(** The available adapter on a store that has come to refuse access. *)
Lemma adapter_on_a_store_blocked_later :
  @save json adapter "x" (JNum 1) blocked = (Normal false, blocked)
  /\ @load json adapter "x" (JNum 42) blocked = (Normal (or_null (JNum 42)), blocked)
  /\ remove adapter "x" blocked = (Normal false, blocked)
  /\ clear adapter blocked = (Normal false, blocked)
  /\ exists text,
       getStorageInfo adapter blocked
       = (Normal (JObj [("available", JBool false); ("error", JStr text)]), blocked).
Proof.
  apply (@blocked_store_fails_soft json adapter "x" (JNum 1) (JNum 42) blocked);
    reflexivity.
Defined.

(** [clear()] of the adapter empties the adapter with the longer prefix
    too. *)
Lemma clear_empties_user_adapter :
  @load json user_adapter "name" JNull (snd (clear adapter shared))
  = (Normal (or_null JNull), snd (clear adapter shared)).
Proof.
  apply (@clear_then_load json adapter user_adapter "name" JNull shared); reflexivity.
Defined.

(** The report on the shared store. *)
Lemma report_of_shared_store :
  getStorageInfo adapter shared
  = (Normal (report (total_size (items shared)) (app_size adapter (items shared))
               (size (items shared))), shared)
  /\ (app_size adapter (items shared) <= total_size (items shared))%nat
  /\ used (items shared) = N.of_nat (total_size (items shared)).
Proof. apply (getStorageInfo_report adapter shared); reflexivity. Defined.

(** The report on the shared store after [clear()]. *)
Lemma report_after_clear_of_shared_store :
  getStorageInfo adapter (snd (clear adapter shared))
  = (Normal (report (total_size (items (snd (clear adapter shared)))) 0
               (size (items (snd (clear adapter shared))))),
     snd (clear adapter shared))
  /\ (total_size (items (snd (clear adapter shared))) + app_size adapter (items shared)
      = total_size (items shared))%nat.
Proof.
  apply (clear_frees_app_size adapter shared); [reflexivity | reflexivity | discriminate].
Defined.

(** The address announced on the sample host. *)
Lemma address_of_host :
  Server.localIP host_interfaces
  = List.last (List.map Server.address
                 (List.filter Server.external_IPv4
                    (List.concat (List.map snd host_interfaces)))) "localhost"
  /\ (List.filter Server.external_IPv4 (List.concat (List.map snd host_interfaces)) = [] ->
      Server.localIP host_interfaces = "localhost")
  /\ (List.filter Server.external_IPv4 (List.concat (List.map snd host_interfaces)) <> [] ->
      exists interfaceName ifaces iface,
        (interfaceName, ifaces) ∈ host_interfaces /\ iface ∈ ifaces
        /\ Server.external_IPv4 iface = true
        /\ Server.localIP host_interfaces = Server.address iface).
Proof.
  apply (localIP_is_last_external host_interfaces).
  apply (bool_decide_unpack (NoDup (Server.keys host_interfaces))). vm_compute. reflexivity.
Defined.


(** [updatedAt] of the sample Task after one operation, and after two
    more. *)
Lemma updatedAt_of_sample_task_moves_on :
  exists u u',
    _updatedAt (fst (run_all [MarkComplete] (sample_task, world1))) = DateAt u
    /\ _updatedAt (fst (run_all ([MarkComplete] ++ [UpdateTitle (JStr ""); MarkIncomplete])
                          (sample_task, world1))) = DateAt u'
    /\ u <= u'.
Proof.
  exact (updatedAt_never_goes_back _ _ _ world0 sample_task world1
           [MarkComplete] [UpdateTitle (JStr ""); MarkIncomplete]
           world0_monotone sample_constructor).
Defined.

(** The sample Task's own title, description and priority, given back to
    it. *)
Lemma sample_task_takes_its_own_fields :
  updateTitle (title sample_task) (sample_task, world1)
  = (Normal tt, (set_updatedAt (DateAt (clock world1 (ticks world1))) sample_task,
                 tick world1))
  /\ updateDescription (description sample_task) (sample_task, world1)
     = (Normal tt, (set_updatedAt (DateAt (clock world1 (ticks world1))) sample_task,
                    tick world1))
  /\ updatePriority (priority sample_task) (sample_task, world1)
     = (Normal tt, (set_updatedAt (DateAt (clock world1 (ticks world1))) sample_task,
                    tick world1)).
Proof.
  apply (getters_feed_mutators sample_task world1).
  repeat split; try (vm_compute; reflexivity). discriminate.
Defined.

End Examples.
